(** * osfs regular-file data path: [osfs_read] and [osfs_write] of file.c

    A shallow embedding of the two file operations of file.c and the
    properties of the read/write path proved about them.

    Conventions.
    - C integers are [Z] with the wrap-around of their type written out:
      [uint32_t] fields through [u32], [size_t] (64-bit, as on every LP64
      kernel) through [u64], [loff_t] and [ssize_t] (signed 64-bit, two's
      complement, the kernel is built with wrapping signed arithmetic)
      through [s64].
    - What file.c takes from elsewhere is a parameter of the development
      (class [Kernel]): the macro [BLOCK_SIZE], the block allocator
      [osfs_alloc_data_block], the user-copy primitives [copy_to_user] and
      [copy_from_user], and the clock [current_time].
    - An operation is a function from the kernel state, the user pointer
      [buf], the length [len] and the cursor value [*ppos] to an [outcome]:
      the returned [ssize_t], the new state and the new cursor value. *)

From Stdlib Require Import ZArith Lia List Bool.
Import ListNotations.
Local Open Scope Z_scope.

(** ** Machine integers *)

Definition u32 (x : Z) : Z := x mod 2 ^ 32.
Definition u64 (x : Z) : Z := x mod 2 ^ 64.
Definition s64 (x : Z) : Z := (x + 2 ^ 63) mod 2 ^ 64 - 2 ^ 63.

Definition is_u32 (x : Z) : Prop := 0 <= x < 2 ^ 32.
Definition is_size_t (x : Z) : Prop := 0 <= x < 2 ^ 64.
Definition is_loff_t (x : Z) : Prop := - 2 ^ 63 <= x < 2 ^ 63.

(** errno values of <asm-generic/errno-base.h>. *)
Definition EFAULT : Z := 14.
Definition ENOSPC : Z := 28.

(** ** Data model *)

Definition byte : Type := Byte.byte.

(** Kernel memory seen from the pointer [sb_info->data_blocks]: the byte at
    [data_blocks + off].  file.c never compares an offset with the extent
    of the region, so the model does not either. *)
Definition kmem : Type := Z -> byte.

Record timespec64 : Type := { tv_sec : Z; tv_nsec : Z }.

(** [struct osfs_inode] (osfs.h), the fields file.c touches. *)
Record osfs_inode : Type := {
  i_size : Z;              (* uint32_t *)
  i_blocks : Z;            (* uint32_t, tested by osfs_read *)
  i_block : Z;             (* uint32_t, tested and used by osfs_write *)
  __i_mtime : timespec64;
  __i_ctime : timespec64
}.

(** [struct inode] of the VFS, the fields file.c touches. *)
Module Vfs.
Record inode : Type := {
  i_size : Z;              (* loff_t *)
  __i_mtime : timespec64;
  __i_ctime : timespec64;
  i_private : osfs_inode
}.
End Vfs.

(** [struct osfs_sb_info]: the data region and the allocator's bookkeeping,
    which file.c hands to the allocator without looking at it. *)
Record osfs_sb_info (A : Type) : Type := {
  data_blocks : kmem;
  block_alloc : A
}.
Arguments data_blocks {A} _.
Arguments block_alloc {A} _.

(** ** What file.c takes from the rest of the kernel *)

Class Kernel : Type := {
  (** the macro, an [int] constant expression *)
  BLOCK_SIZE : Z;
  (** allocator bookkeeping, user address space, time source *)
  alloc_state : Type;
  uspace : Type;
  clock : Type;
  (** [osfs_alloc_data_block(sb_info, &block_no)]: the returned [int], the
      superblock afterwards, and the value left in [block_no]. *)
  osfs_alloc_data_block :
    osfs_sb_info alloc_state -> Z -> Z * osfs_sb_info alloc_state * Z;
  (** the byte a user address holds, when it is accessible *)
  upeek : uspace -> Z -> option byte;
  (** [copy_to_user(to, data_blocks + from, n)]: the number of bytes that
      could not be copied, and the user address space afterwards. *)
  copy_to_user : uspace -> Z -> kmem -> Z -> Z -> Z * uspace;
  (** [copy_from_user(data_blocks + to, from, n)]: the number of bytes that
      could not be copied, and kernel memory afterwards. *)
  copy_from_user : uspace -> kmem -> Z -> Z -> Z -> Z * kmem;
  (** [current_time(inode)] *)
  current_time : clock -> timespec64 * clock
}.

(** The contract of the copy primitives that the data properties rely on:
    a copy that reports zero bytes left has moved every byte. *)
Definition uaccess_ok (K : Kernel) : Prop :=
  (forall u m to from n r m', copy_from_user u m to from n = (r, m') -> r = 0 ->
     forall k, 0 <= k < n -> upeek u (from + k) = Some (m' (to + k)))
  /\
  (forall u to m from n r u', copy_to_user u to m from n = (r, u') -> r = 0 ->
     forall k, 0 <= k < n -> upeek u' (to + k) = Some (m (from + k))).

(** What a copy into kernel memory leaves alone: [copy_from_user(to, from,
    n)], whether it succeeds or not, changes no byte outside the [n] bytes
    at [to]. *)
Definition uaccess_frame (K : Kernel) : Prop :=
  forall u m to from n a, 0 <= n -> a < to \/ to + n <= a ->
    snd (copy_from_user u m to from n) a = m a.

Section Model.
Context {K : Kernel}.

(** Everything one call can read or change. *)
Record kstate : Type := {
  k_inode : Vfs.inode;
  k_sb : osfs_sb_info alloc_state;
  k_user : uspace;
  k_clock : clock
}.

Record outcome : Type := {
  ret : Z;        (* the ssize_t returned *)
  st : kstate;    (* the state left behind *)
  pos : Z         (* the value left in *ppos *)
}.

Definition with_user (u : uspace) (s : kstate) : kstate :=
  {| k_inode := k_inode s; k_sb := k_sb s; k_user := u; k_clock := k_clock s |}.

Definition with_data (m : kmem) (sb : osfs_sb_info alloc_state) : osfs_sb_info alloc_state :=
  {| data_blocks := m; block_alloc := block_alloc sb |}.

Definition with_i_block (b : Z) (oi : osfs_inode) : osfs_inode :=
  {| i_size := i_size oi; i_blocks := i_blocks oi; i_block := b;
     __i_mtime := __i_mtime oi; __i_ctime := __i_ctime oi |}.

Definition with_i_size (n : Z) (oi : osfs_inode) : osfs_inode :=
  {| i_size := n; i_blocks := i_blocks oi; i_block := i_block oi;
     __i_mtime := __i_mtime oi; __i_ctime := __i_ctime oi |}.

Definition with_times (t : timespec64) (oi : osfs_inode) : osfs_inode :=
  {| i_size := i_size oi; i_blocks := i_blocks oi; i_block := i_block oi;
     __i_mtime := t; __i_ctime := t |}.

Definition with_private (oi : osfs_inode) (ino : Vfs.inode) : Vfs.inode :=
  {| Vfs.i_size := Vfs.i_size ino; Vfs.__i_mtime := Vfs.__i_mtime ino;
     Vfs.__i_ctime := Vfs.__i_ctime ino; Vfs.i_private := oi |}.

(** [sb_info->data_blocks + osfs_inode->i_block * BLOCK_SIZE + *ppos] as an
    offset from [data_blocks]; the product is computed in [unsigned int]. *)
Definition data_block (oi : osfs_inode) (ppos : Z) : Z :=
  u32 (i_block oi * BLOCK_SIZE) + ppos.

(** *** osfs_read *)

(** Line 33-34: [if ( *ppos + len > i_size) len = i_size - *ppos;] *)
Definition read_len (oi : osfs_inode) (len ppos : Z) : Z :=
  if u64 (ppos + len) >? i_size oi then u64 (s64 (i_size oi - ppos)) else len.

Definition osfs_read (s : kstate) (buf len ppos : Z) : outcome :=
  let oi := Vfs.i_private (k_inode s) in
  if i_blocks oi =? 0 then {| ret := 0; st := s; pos := ppos |}
  else if ppos >=? i_size oi then {| ret := 0; st := s; pos := ppos |}
  else
    let len := read_len oi len ppos in
    let '(uncopied, u) :=
      copy_to_user (k_user s) buf (data_blocks (k_sb s)) (data_block oi ppos) len in
    if negb (uncopied =? 0) then {| ret := - EFAULT; st := with_user u s; pos := ppos |}
    else {| ret := s64 len; st := with_user u s; pos := s64 (u64 (ppos + len)) |}.

(** *** osfs_write *)

(** Step 2: allocate a block when [i_block == 0]; the allocator's return
    value is dropped. *)
Definition write_alloc (s : kstate) : osfs_sb_info alloc_state * osfs_inode :=
  let oi := Vfs.i_private (k_inode s) in
  if i_block oi =? 0 then
    let '(_, sb, b) := osfs_alloc_data_block (k_sb s) (i_block oi) in
    (sb, with_i_block (u32 b) oi)
  else (k_sb s, oi).

(** Step 3: [if ( *ppos + len > BLOCK_SIZE) len = BLOCK_SIZE - *ppos;] *)
Definition write_len (len ppos : Z) : Z :=
  if u64 (ppos + len) >? u64 BLOCK_SIZE then u64 (s64 (BLOCK_SIZE - ppos)) else len.

(** Step 4: the call of [copy_from_user]. *)
Definition write_copy (s : kstate) (buf len ppos : Z) : Z * kmem :=
  let '(sb, oi) := write_alloc s in
  copy_from_user (k_user s) (data_blocks sb) (data_block oi ppos) buf (write_len len ppos).

Definition osfs_write (s : kstate) (buf len ppos : Z) : outcome :=
  let ino := k_inode s in
  let '(sb, oi) := write_alloc s in
  let len := write_len len ppos in
  let '(uncopied, m) :=
    copy_from_user (k_user s) (data_blocks sb) (data_block oi ppos) buf len in
  if negb (uncopied =? 0) then
    {| ret := - EFAULT;
       st := {| k_inode := with_private oi ino; k_sb := with_data m sb;
                k_user := k_user s; k_clock := k_clock s |};
       pos := ppos |}
  else
    let ppos := s64 (u64 (ppos + len)) in
    let bytes_written := s64 len in
    (* Step 5 *)
    let oi := with_i_size (Z.max (i_size oi) (u32 ppos)) oi in
    let '(t1, c1) := current_time (k_clock s) in
    let oi := with_times t1 oi in
    let '(t2, c2) := current_time c1 in
    let ino := {| Vfs.i_size := i_size oi; Vfs.__i_mtime := t2;
                  Vfs.__i_ctime := t2; Vfs.i_private := oi |} in
    {| ret := bytes_written;
       st := {| k_inode := ino; k_sb := with_data m sb;
                k_user := k_user s; k_clock := c2 |};
       pos := ppos |}.

(** The on-disk inode of a state, and the metadata invariant of the data
    model: an unallocated file is empty, and a file fits its one block. *)
Definition meta (s : kstate) : osfs_inode := Vfs.i_private (k_inode s).

Definition meta_inv (oi : osfs_inode) : Prop :=
  (i_block oi = 0 -> i_size oi = 0) /\ i_size oi <= BLOCK_SIZE.

(** [BLOCK_SIZE] is a positive [int]. *)
Definition block_size_ok : Prop := 0 < BLOCK_SIZE < 2 ^ 31.

(** The user buffer at [buf] holds the bytes [B]. *)
Definition user_holds (u : uspace) (buf : Z) (B : list byte) : Prop :=
  forall k, (k < length B)%nat -> upeek u (buf + Z.of_nat k) = nth_error B k.

(** *** Sessions

    [osfs_file_operations] hands both operations to the VFS, which keeps
    the cursor: it passes [*ppos] to each call and may move it in between
    ([.llseek] is [default_llseek]).  A session is a list of such calls;
    running it threads the state and the cursor through them. *)
Inductive call : Type :=
| do_read (buf len : Z)
| do_write (buf len : Z)
| do_seek (ppos : Z).

Definition step (c : call) (x : kstate * Z) : kstate * Z :=
  match c with
  | do_read buf len => let r := osfs_read (fst x) buf len (snd x) in (st r, pos r)
  | do_write buf len => let w := osfs_write (fst x) buf len (snd x) in (st w, pos w)
  | do_seek ppos => (fst x, ppos)
  end.

Fixpoint run (cs : list call) (x : kstate * Z) : kstate * Z :=
  match cs with
  | [] => x
  | c :: cs => run cs (step c x)
  end.

End Model.

(** ** A concrete kernel, for running the model

    One mapped window of user memory, an all-or-nothing copy in both
    directions, an allocator that hands out the blocks 1, 2, ... below
    [block_count] in turn and then fails with [-ENOSPC], and a clock that
    ticks once per reading.
    [BLOCK_SIZE] is 4096. *)

Record flat_user : Type := { ubase : Z; ubytes : list byte }.

Definition flat_peek (u : flat_user) (a : Z) : option byte :=
  if (ubase u <=? a) && (a <? ubase u + Z.of_nat (length (ubytes u)))
  then nth_error (ubytes u) (Z.to_nat (a - ubase u)) else None.

(** The [n] bytes at user address [a] lie in the window. *)
Definition flat_mapped (u : flat_user) (a n : Z) : bool :=
  (n =? 0) || ((0 <? n) && (ubase u <=? a) && (a + n <=? ubase u + Z.of_nat (length (ubytes u)))).

Definition kstore (m : kmem) (to : Z) (bs : list byte) : kmem :=
  fun a => if (to <=? a) && (a <? to + Z.of_nat (length bs))
           then nth (Z.to_nat (a - to)) bs Byte.x00 else m a.

Definition kload (m : kmem) (from : Z) (n : nat) : list byte :=
  map (fun k => m (from + Z.of_nat k)) (seq 0 n).

Definition flat_copy_from_user (u : flat_user) (m : kmem) (to from n : Z) : Z * kmem :=
  if flat_mapped u from n
  then (0, kstore m to (firstn (Z.to_nat n) (skipn (Z.to_nat (from - ubase u)) (ubytes u))))
  else (n, m).

Definition flat_copy_to_user (u : flat_user) (to : Z) (m : kmem) (from n : Z) : Z * flat_user :=
  if flat_mapped u to n
  then (0, {| ubase := ubase u;
              ubytes := firstn (Z.to_nat (to - ubase u)) (ubytes u)
                        ++ kload m from (Z.to_nat n)
                        ++ skipn (Z.to_nat (to - ubase u) + Z.to_nat n) (ubytes u) |})
  else (n, u).

Record bump : Type := { next_free : Z; block_count : Z }.

Definition bump_alloc (sb : osfs_sb_info bump) (block_no : Z) : Z * osfs_sb_info bump * Z :=
  let a := block_alloc sb in
  if next_free a <? block_count a
  then (0, {| data_blocks := data_blocks sb;
              block_alloc := {| next_free := next_free a + 1; block_count := block_count a |} |},
        next_free a)
  else (- ENOSPC, sb, block_no).

Definition tick (c : Z) : timespec64 * Z := ({| tv_sec := c; tv_nsec := 0 |}, c + 1).

Definition flat_kernel : Kernel := {|
  BLOCK_SIZE := 4096;
  alloc_state := bump;
  uspace := flat_user;
  clock := Z;
  osfs_alloc_data_block := bump_alloc;
  upeek := flat_peek;
  copy_to_user := flat_copy_to_user;
  copy_from_user := flat_copy_from_user;
  current_time := tick
|}.

Definition epoch : timespec64 := {| tv_sec := 0; tv_nsec := 0 |}.

(** A file of [size] bytes on block [blk] ([blocks] is its [i_blocks]). *)
Definition file_of (size blocks blk : Z) : Vfs.inode :=
  {| Vfs.i_size := size; Vfs.__i_mtime := epoch; Vfs.__i_ctime := epoch;
     Vfs.i_private := {| i_size := size; i_blocks := blocks; i_block := blk;
                         __i_mtime := epoch; __i_ctime := epoch |} |}.

Definition zeroed : kmem := fun _ => Byte.x00.

(** A state of [flat_kernel]: the data region [m], the file, [free] blocks
    left from block 1 on, the user window [bs] mapped at address [base],
    the clock at 100. *)
Definition flat_state (m : kmem) (ino : Vfs.inode) (free : Z) (base : Z) (bs : list byte)
  : @kstate flat_kernel :=
  @Build_kstate flat_kernel ino
    {| data_blocks := m;
       block_alloc := {| next_free := 1; block_count := 1 + free |} |}
    {| ubase := base; ubytes := bs |}
    100.

Definition flat_write : @kstate flat_kernel -> Z -> Z -> Z -> @outcome flat_kernel :=
  @osfs_write flat_kernel.

Definition flat_read : @kstate flat_kernel -> Z -> Z -> Z -> @outcome flat_kernel :=
  @osfs_read flat_kernel.

(** Bytes for the examples. *)
Definition abc : list byte := [Byte.x61; Byte.x62; Byte.x63].
Definition a_to_j : list byte :=
  [Byte.x61; Byte.x62; Byte.x63; Byte.x64; Byte.x65;
   Byte.x66; Byte.x67; Byte.x68; Byte.x69; Byte.x6a].
Definition zeros (n : nat) : list byte := repeat Byte.x00 n.

(** * Properties *)

(** ** Machine-integer facts *)

Lemma u64_small (x : Z) : 0 <= x < 2 ^ 64 -> u64 x = x.
Proof. intros H. unfold u64. apply Z.mod_small. exact H. Qed.

Lemma u32_small (x : Z) : 0 <= x < 2 ^ 32 -> u32 x = x.
Proof. intros H. unfold u32. apply Z.mod_small. exact H. Qed.

Lemma s64_small (x : Z) : - 2 ^ 63 <= x < 2 ^ 63 -> s64 x = x.
Proof. intros H. unfold s64. rewrite Z.mod_small; lia. Qed.

Lemma u64_range (x : Z) : 0 <= u64 x < 2 ^ 64.
Proof. unfold u64. apply Z.mod_pos_bound. lia. Qed.

Lemma u64_s64 (x : Z) : u64 (s64 x) = u64 x.
Proof.
  unfold u64, s64.
  rewrite Zminus_mod, Zmod_mod, <- Zminus_mod.
  f_equal. lia.
Qed.

Lemma u64_add_u64 (a b : Z) : u64 (a + u64 b) = u64 (a + b).
Proof. unfold u64. apply Zplus_mod_idemp_r. Qed.

Section Properties.
Context {K : Kernel}.

(** ** The two ways out of [osfs_write] *)

(** The inode and superblock [osfs_write] works on after Step 2. *)
Lemma write_alloc_allocated (s : kstate) :
  i_block (meta s) <> 0 -> write_alloc s = (k_sb s, meta s).
Proof.
  intros H. unfold write_alloc, meta in *.
  destruct (Z.eqb_spec (i_block (Vfs.i_private (k_inode s))) 0); congruence.
Qed.

Lemma write_alloc_keeps (s : kstate) :
  let oi := snd (write_alloc s) in
  i_size oi = i_size (meta s) /\ i_blocks oi = i_blocks (meta s) /\
  __i_mtime oi = __i_mtime (meta s) /\ __i_ctime oi = __i_ctime (meta s).
Proof.
  unfold write_alloc, meta.
  destruct (i_block (Vfs.i_private (k_inode s)) =? 0); simpl; [|tauto].
  destruct (osfs_alloc_data_block _ _) as [[r sb] b]; simpl. tauto.
Qed.

(** A failed copy: [-EFAULT], the cursor and the clock untouched, the inode
    as Step 2 left it. *)
Lemma osfs_write_fault (s : kstate) (buf len ppos : Z) :
  fst (write_copy s buf len ppos) <> 0 ->
  osfs_write s buf len ppos =
  {| ret := - EFAULT;
     st := {| k_inode := with_private (snd (write_alloc s)) (k_inode s);
              k_sb := with_data (snd (write_copy s buf len ppos)) (fst (write_alloc s));
              k_user := k_user s; k_clock := k_clock s |};
     pos := ppos |}.
Proof.
  unfold osfs_write, write_copy.
  destruct (write_alloc s) as [sb oi]; simpl.
  destruct (copy_from_user _ _ _ _ _) as [l m]; simpl.
  intros H. destruct (Z.eqb_spec l 0); [contradiction|reflexivity].
Qed.

(** A successful copy: the clipped length is returned, the cursor moves by
    it, and Step 5 updates both inodes. *)
Lemma osfs_write_done (s : kstate) (buf len ppos : Z) :
  fst (write_copy s buf len ppos) = 0 ->
  let n := write_len len ppos in
  let p := s64 (u64 (ppos + n)) in
  let oi := snd (write_alloc s) in
  let t1 := fst (current_time (k_clock s)) in
  let c1 := snd (current_time (k_clock s)) in
  let oi' := with_times t1 (with_i_size (Z.max (i_size oi) (u32 p)) oi) in
  osfs_write s buf len ppos =
  {| ret := s64 n;
     st := {| k_inode := {| Vfs.i_size := i_size oi';
                            Vfs.__i_mtime := fst (current_time c1);
                            Vfs.__i_ctime := fst (current_time c1);
                            Vfs.i_private := oi' |};
              k_sb := with_data (snd (write_copy s buf len ppos)) (fst (write_alloc s));
              k_user := k_user s; k_clock := snd (current_time c1) |};
     pos := p |}.
Proof.
  unfold osfs_write, write_copy.
  destruct (write_alloc s) as [sb oi]; simpl.
  destruct (copy_from_user _ _ _ _ _) as [l m]; simpl.
  intros H. subst l. simpl.
  destruct (current_time (k_clock s)) as [t1 c1]; simpl.
  destruct (current_time c1) as [t2 c2]; simpl.
  reflexivity.
Qed.

(** ** C2: a failed copy *)

(** C2, as amended.  When [copy_from_user] fails, [osfs_write] returns
    [-EFAULT] and leaves the size, both timestamps, the block count, the
    VFS inode's own fields, the clock and the position cursor as they were.
    The block assignment is unchanged when the file already had a block;
    when it had none, Step 2 has already run and [i_block] holds what the
    allocator stored. *)
Theorem write_fault_keeps_metadata (s : kstate) (buf len ppos : Z) :
  fst (write_copy s buf len ppos) <> 0 ->
  ret (osfs_write s buf len ppos) = - EFAULT /\
  pos (osfs_write s buf len ppos) = ppos /\
  i_size (meta (st (osfs_write s buf len ppos))) = i_size (meta s) /\
  __i_mtime (meta (st (osfs_write s buf len ppos))) = __i_mtime (meta s) /\
  __i_ctime (meta (st (osfs_write s buf len ppos))) = __i_ctime (meta s) /\
  i_blocks (meta (st (osfs_write s buf len ppos))) = i_blocks (meta s) /\
  Vfs.i_size (k_inode (st (osfs_write s buf len ppos))) = Vfs.i_size (k_inode s) /\
  Vfs.__i_mtime (k_inode (st (osfs_write s buf len ppos))) = Vfs.__i_mtime (k_inode s) /\
  Vfs.__i_ctime (k_inode (st (osfs_write s buf len ppos))) = Vfs.__i_ctime (k_inode s) /\
  k_clock (st (osfs_write s buf len ppos)) = k_clock s /\
  (i_block (meta s) <> 0 ->
     i_block (meta (st (osfs_write s buf len ppos))) = i_block (meta s)) /\
  (i_block (meta s) = 0 ->
     i_block (meta (st (osfs_write s buf len ppos))) =
     u32 (snd (osfs_alloc_data_block (k_sb s) 0))).
Proof.
  intros H. rewrite (osfs_write_fault _ _ _ _ H). simpl.
  destruct (write_alloc_keeps s) as (Hs & Hb & Hm & Hc).
  unfold meta at 1 3 5 7 9 11. simpl.
  repeat split; try assumption.
  - intros Hb0. rewrite (write_alloc_allocated _ Hb0). reflexivity.
  - intros Hb0. unfold write_alloc. fold (meta s). rewrite Hb0. simpl.
    destruct (osfs_alloc_data_block _ _) as [[r sb] b]. reflexivity.
Qed.

(** ** Lengths and positions without wrap-around *)

Lemma u64_wrap (x k : Z) : 0 <= x - k * 2 ^ 64 < 2 ^ 64 -> u64 x = x - k * 2 ^ 64.
Proof.
  intros H. unfold u64. symmetry.
  apply (Z.mod_unique x (2 ^ 64) k); [left; exact H | lia].
Qed.

Lemma s64_wrap (x k : Z) : - 2 ^ 63 <= x - k * 2 ^ 64 < 2 ^ 63 -> s64 x = x - k * 2 ^ 64.
Proof.
  intros H. unfold s64.
  rewrite <- (Z.mod_unique (x + 2 ^ 63) (2 ^ 64) k (x - k * 2 ^ 64 + 2 ^ 63)); lia.
Qed.

Lemma s64_u64 (x : Z) : s64 (u64 x) = s64 x.
Proof.
  unfold s64, u64. f_equal.
  rewrite Zplus_mod_idemp_l. reflexivity.
Qed.

(** Step 3 inside the block: the clipped length is the smaller of the
    request and the room left. *)
Lemma write_len_in_block (len ppos : Z) :
  block_size_ok -> 0 <= ppos <= BLOCK_SIZE -> 0 <= len -> ppos + len < 2 ^ 64 ->
  write_len len ppos = Z.min len (BLOCK_SIZE - ppos).
Proof.
  unfold block_size_ok, write_len. intros HB Hp Hl Hs.
  rewrite (u64_small (ppos + len)) by lia.
  rewrite (u64_small BLOCK_SIZE) by lia.
  destruct (Z.gtb_spec (ppos + len) BLOCK_SIZE).
  - rewrite u64_s64, u64_small by lia. lia.
  - lia.
Qed.

(** Whatever the arguments, the cursor a successful write leaves is a
    position of the block, its end included. *)
Lemma write_pos_range (len ppos : Z) :
  block_size_ok ->
  0 <= s64 (u64 (ppos + write_len len ppos)) <= BLOCK_SIZE.
Proof.
  unfold block_size_ok, write_len. intros HB.
  rewrite (u64_small BLOCK_SIZE) by lia.
  destruct (Z.gtb_spec (u64 (ppos + len)) BLOCK_SIZE) as [Hgt|Hle].
  - rewrite u64_s64, u64_add_u64.
    replace (ppos + (BLOCK_SIZE - ppos)) with BLOCK_SIZE by lia.
    rewrite u64_small, s64_small; lia.
  - pose proof (u64_range (ppos + len)).
    rewrite s64_small; lia.
Qed.

(** For a caller that keeps the cursor non-negative, the cursor moves by
    exactly the count returned. *)
Lemma write_pos_ret (len ppos : Z) :
  block_size_ok -> is_loff_t ppos -> 0 <= ppos -> is_size_t len ->
  s64 (u64 (ppos + write_len len ppos)) = ppos + s64 (write_len len ppos).
Proof.
  unfold block_size_ok, write_len, is_size_t, is_loff_t. intros HB Hp Hp0 Hl.
  rewrite (u64_small BLOCK_SIZE) by lia.
  destruct (Z.gtb_spec (u64 (ppos + len)) BLOCK_SIZE) as [Hgt|Hle].
  - rewrite u64_s64, u64_add_u64.
    replace (ppos + (BLOCK_SIZE - ppos)) with BLOCK_SIZE by lia.
    rewrite !s64_u64, !s64_small; lia.
  - pose proof (u64_range (ppos + len)).
    rewrite s64_small by lia.
    destruct (Z_lt_ge_dec (ppos + len) (2 ^ 64)) as [Hs|Hs].
    + rewrite u64_small in * by lia. rewrite s64_small; lia.
    + rewrite (u64_wrap (ppos + len) 1) in * by lia.
      rewrite (s64_wrap len 1); lia.
Qed.

(** ** The metadata a write leaves *)

Lemma write_i_block (s : kstate) (buf len ppos : Z) :
  i_block (meta (st (osfs_write s buf len ppos))) = i_block (snd (write_alloc s)).
Proof.
  destruct (Z.eq_dec (fst (write_copy s buf len ppos)) 0) as [H|H].
  - rewrite (osfs_write_done _ _ _ _ H). reflexivity.
  - rewrite (osfs_write_fault _ _ _ _ H). reflexivity.
Qed.

Lemma write_done_size (s : kstate) (buf len ppos : Z) :
  block_size_ok ->
  fst (write_copy s buf len ppos) = 0 ->
  i_size (meta (st (osfs_write s buf len ppos))) =
  Z.max (i_size (meta s)) (pos (osfs_write s buf len ppos)).
Proof.
  intros HB H. rewrite (osfs_write_done _ _ _ _ H). unfold meta at 1. simpl.
  destruct (write_alloc_keeps s) as (Hs & _). simpl in Hs. rewrite Hs.
  pose proof (write_pos_range len ppos HB) as Hr.
  unfold block_size_ok in HB.
  rewrite u32_small by lia. reflexivity.
Qed.

Lemma write_alloc_stuck (s : kstate) :
  i_block (meta s) = 0 ->
  snd (osfs_alloc_data_block (k_sb s) 0) = 0 ->
  i_block (snd (write_alloc s)) = 0.
Proof.
  intros H0 Hb. unfold write_alloc. fold (meta s). rewrite H0. simpl.
  destruct (osfs_alloc_data_block (k_sb s) 0) as [[r sb] b]. simpl in *.
  subst b. reflexivity.
Qed.

Lemma write_fault_size (s : kstate) (buf len ppos : Z) :
  fst (write_copy s buf len ppos) <> 0 ->
  ret (osfs_write s buf len ppos) = - EFAULT /\
  pos (osfs_write s buf len ppos) = ppos /\
  i_size (meta (st (osfs_write s buf len ppos))) = i_size (meta s).
Proof.
  intros H. rewrite (osfs_write_fault _ _ _ _ H). simpl.
  destruct (write_alloc_keeps s) as (Hs & _). auto.
Qed.

(** ** The allocator cannot supply a block *)

(** The extent of the defect in Step 2.  [osfs_write] calls the allocator
    to give the file a block and drops its result.  So for every write
    inside the block to a file whose [i_block] is the unallocated
    sentinel, when the allocator fails (it returns an error and leaves
    [i_block] at the sentinel) no out-of-space error comes back: [i_block]
    is still the sentinel afterwards, and the call goes on to copy into
    block 0.  When the copy fails it returns [-EFAULT] and the size is
    unchanged; when the copy succeeds it reports the clipped length
    [min len (BLOCK_SIZE - ppos)] as written and the size becomes
    [max size (ppos + that length)]. *)
Theorem write_ignores_alloc_failure (s : kstate) (buf len ppos : Z) :
  block_size_ok -> 0 <= ppos <= BLOCK_SIZE -> 0 <= len -> ppos + len < 2 ^ 64 ->
  i_block (meta s) = 0 ->
  fst (fst (osfs_alloc_data_block (k_sb s) 0)) <> 0 ->
  snd (osfs_alloc_data_block (k_sb s) 0) = 0 ->
  i_block (meta (st (osfs_write s buf len ppos))) = 0 /\
  (fst (write_copy s buf len ppos) <> 0 ->
     ret (osfs_write s buf len ppos) = - EFAULT /\
     i_size (meta (st (osfs_write s buf len ppos))) = i_size (meta s)) /\
  (fst (write_copy s buf len ppos) = 0 ->
     ret (osfs_write s buf len ppos) = Z.min len (BLOCK_SIZE - ppos) /\
     0 <= ret (osfs_write s buf len ppos) /\
     i_size (meta (st (osfs_write s buf len ppos))) =
       Z.max (i_size (meta s)) (ppos + Z.min len (BLOCK_SIZE - ppos))).
Proof.
  intros HB Hp Hl Hs H0 _ Hb.
  split; [|split].
  - rewrite write_i_block. apply write_alloc_stuck; assumption.
  - intros H. destruct (write_fault_size s buf len ppos H) as (Hr & _ & Hz).
    split; assumption.
  - intros H.
    pose proof (write_len_in_block len ppos HB Hp Hl Hs) as Hn.
    rewrite (write_done_size _ _ _ _ HB H).
    rewrite (osfs_write_done _ _ _ _ H). simpl. rewrite Hn.
    unfold block_size_ok in HB.
    rewrite u64_small, !s64_small by lia.
    repeat split; lia.
Qed.

(** ** C4: a write at the end of the block *)

(** C4, as amended.  [osfs_write] has no boundary error.  A write at
    position [BLOCK_SIZE] is not rejected: Step 3 leaves it a length of
    zero, the copy primitive is called with that length, and the write
    returns [-EFAULT] when the copy fails and [0], with the cursor still
    at [BLOCK_SIZE], when it succeeds. *)
Theorem write_at_block_end (s : kstate) (buf len : Z) :
  block_size_ok -> 0 <= len -> BLOCK_SIZE + len < 2 ^ 64 ->
  write_len len BLOCK_SIZE = 0 /\
  (fst (write_copy s buf len BLOCK_SIZE) <> 0 ->
     ret (osfs_write s buf len BLOCK_SIZE) = - EFAULT) /\
  (fst (write_copy s buf len BLOCK_SIZE) = 0 ->
     ret (osfs_write s buf len BLOCK_SIZE) = 0 /\
     pos (osfs_write s buf len BLOCK_SIZE) = BLOCK_SIZE).
Proof.
  intros HB Hl Hs.
  assert (Hn : write_len len BLOCK_SIZE = 0).
  { rewrite write_len_in_block; unfold block_size_ok in *; lia. }
  split; [exact Hn|split].
  - intros H. apply (write_fault_size s buf len BLOCK_SIZE H).
  - intros H. rewrite (osfs_write_done _ _ _ _ H). simpl. rewrite Hn.
    unfold block_size_ok in HB.
    rewrite Z.add_0_r, u64_small, !s64_small by lia. split; reflexivity.
Qed.

(** ** The metadata invariant *)

Lemma read_keeps_meta (s : kstate) (buf len ppos : Z) :
  meta (st (osfs_read s buf len ppos)) = meta s /\
  k_sb (st (osfs_read s buf len ppos)) = k_sb s.
Proof.
  unfold osfs_read, meta.
  destruct (i_blocks _ =? 0); [split; reflexivity|].
  destruct (ppos >=? _); [split; reflexivity|].
  destruct (copy_to_user _ _ _ _ _) as [l u]; simpl.
  destruct (negb (l =? 0)); split; reflexivity.
Qed.

Lemma write_size_bound (s : kstate) (buf len ppos : Z) :
  block_size_ok -> i_size (meta s) <= BLOCK_SIZE ->
  i_size (meta s) <= i_size (meta (st (osfs_write s buf len ppos))) <= BLOCK_SIZE.
Proof.
  intros HB Hle.
  destruct (Z.eq_dec (fst (write_copy s buf len ppos)) 0) as [H|H].
  - rewrite (write_done_size _ _ _ _ HB H).
    rewrite (osfs_write_done _ _ _ _ H). simpl.
    pose proof (write_pos_range len ppos HB). lia.
  - destruct (write_fault_size s buf len ppos H) as (_ & _ & Hz). lia.
Qed.

(** What the two operations keep of the metadata invariant.  On a file
    that satisfies it, every read leaves the metadata as it was, hence the
    invariant, and every write keeps [size <= BLOCK_SIZE].  A write keeps
    the whole invariant when the allocator, if Step 2 calls it, stores an
    allocated (non-zero) block index; when the allocator fails, the
    dropped result of Step 2 lets the write break it. *)
Theorem rw_keep_meta_inv (s : kstate) (buf len ppos : Z) :
  block_size_ok -> meta_inv (meta s) ->
  meta_inv (meta (st (osfs_read s buf len ppos))) /\
  i_size (meta (st (osfs_write s buf len ppos))) <= BLOCK_SIZE /\
  ((i_block (meta s) = 0 -> u32 (snd (osfs_alloc_data_block (k_sb s) 0)) <> 0) ->
   meta_inv (meta (st (osfs_write s buf len ppos)))).
Proof.
  intros HB [Hu Hle].
  split; [|split].
  - destruct (read_keeps_meta s buf len ppos) as [-> _]. split; assumption.
  - apply write_size_bound; assumption.
  - intros Ha. split; [|apply write_size_bound; assumption].
    rewrite write_i_block. intros Hz. exfalso.
    destruct (Z.eq_dec (i_block (meta s)) 0) as [H0|H0].
    + apply (Ha H0). revert Hz. unfold write_alloc. fold (meta s). rewrite H0. simpl.
      destruct (osfs_alloc_data_block (k_sb s) 0) as [[r sb] b]. simpl. auto.
    + rewrite (write_alloc_allocated _ H0) in Hz. simpl in Hz. contradiction.
Qed.

(** ** C6: reading nothing *)

(** C6.  A read returns 0, with no error, and leaves the state and the
    position cursor untouched when the file has no block ([i_blocks], the
    field [osfs_read] tests, is 0), or when the position is at or past the
    size, or when [i_block] is the unallocated sentinel on a file that
    satisfies the metadata invariant and the position is not negative. *)
Theorem read_nothing (s : kstate) (buf len ppos : Z) :
  i_blocks (meta s) = 0 \/ ppos >= i_size (meta s) \/
  (i_block (meta s) = 0 /\ meta_inv (meta s) /\ 0 <= ppos) ->
  osfs_read s buf len ppos = {| ret := 0; st := s; pos := ppos |}.
Proof.
  intros H. unfold osfs_read. fold (meta s).
  destruct (Z.eqb_spec (i_blocks (meta s)) 0) as [|Hb]; [reflexivity|].
  assert (Hge : ppos >= i_size (meta s)).
  { destruct H as [H|[H|(H0 & [Hu _] & Hp)]]; [contradiction|exact H|].
    rewrite (Hu H0). lia. }
  destruct (Z.geb_spec ppos (i_size (meta s))); [reflexivity|lia].
Qed.

(** ** C7: a read stops at the recorded size *)

Lemma read_len_clamps (oi : osfs_inode) (len ppos : Z) :
  is_u32 (i_size oi) -> 0 <= ppos < i_size oi -> 0 <= len -> ppos + len < 2 ^ 64 ->
  read_len oi len ppos = Z.min len (i_size oi - ppos).
Proof.
  unfold is_u32, read_len. intros Hz Hp Hl Hs.
  rewrite (u64_small (ppos + len)) by lia.
  destruct (Z.gtb_spec (ppos + len) (i_size oi)).
  - rewrite u64_s64, u64_small by lia. lia.
  - lia.
Qed.

(** A read that gets past both end-of-file tests: the copy is asked for
    [min len (size - ppos)] bytes and decides the outcome. *)
Lemma osfs_read_copy (s : kstate) (buf len ppos : Z) :
  is_u32 (i_size (meta s)) -> i_blocks (meta s) <> 0 ->
  0 <= ppos < i_size (meta s) -> 0 <= len -> ppos + len < 2 ^ 64 ->
  let n := Z.min len (i_size (meta s) - ppos) in
  let c := copy_to_user (k_user s) buf (data_blocks (k_sb s)) (data_block (meta s) ppos) n in
  osfs_read s buf len ppos =
  if fst c =? 0
  then {| ret := n; st := with_user (snd c) s; pos := ppos + n |}
  else {| ret := - EFAULT; st := with_user (snd c) s; pos := ppos |}.
Proof.
  intros Hz Hb Hp Hl Hs n c.
  pose proof (read_len_clamps (meta s) len ppos Hz Hp Hl Hs) as Hn. fold n in Hn.
  unfold osfs_read. fold (meta s).
  destruct (Z.eqb_spec (i_blocks (meta s)) 0); [contradiction|].
  destruct (Z.geb_spec ppos (i_size (meta s))); [lia|].
  rewrite Hn. fold c. destruct c as [l u]. simpl.
  destruct (l =? 0); simpl; [|reflexivity].
  unfold is_u32 in Hz.
  rewrite u64_small, !s64_small by lia. reflexivity.
Qed.

(** C7.  For a read on a file with a block ([i_blocks <> 0]) at a position
    [0 <= ppos < size], the length handed to [copy_to_user] is
    [min len (size - ppos)], read from the file's block at offset [ppos].
    A successful copy makes the read return that count and advance the
    cursor by it, the user buffer then holding the block's bytes
    [ppos .. ppos + count); a failed copy makes it return [-EFAULT] with
    the cursor where it was.  No byte at or past [size] is transferred. *)
Theorem read_clamps_to_size (s : kstate) (buf len ppos : Z) :
  is_u32 (i_size (meta s)) -> i_blocks (meta s) <> 0 ->
  0 <= ppos < i_size (meta s) -> 0 <= len -> ppos + len < 2 ^ 64 ->
  let n := Z.min len (i_size (meta s) - ppos) in
  let c := copy_to_user (k_user s) buf (data_blocks (k_sb s)) (data_block (meta s) ppos) n in
  read_len (meta s) len ppos = n /\
  ppos + n <= i_size (meta s) /\
  (fst c = 0 ->
     osfs_read s buf len ppos =
       {| ret := n; st := with_user (snd c) s; pos := ppos + n |} /\
     (uaccess_ok K -> forall k, 0 <= k < n ->
        upeek (k_user (st (osfs_read s buf len ppos))) (buf + k) =
        Some (data_blocks (k_sb s) (data_block (meta s) ppos + k)))) /\
  (fst c <> 0 ->
     osfs_read s buf len ppos =
       {| ret := - EFAULT; st := with_user (snd c) s; pos := ppos |}).
Proof.
  intros Hz Hb Hp Hl Hs n c.
  pose proof (osfs_read_copy s buf len ppos Hz Hb Hp Hl Hs) as Hr.
  cbv zeta in Hr. fold n c in Hr.
  split; [apply read_len_clamps; assumption|]. split; [lia|]. split.
  - intros Hc. rewrite Hr, Hc. simpl.
    split; [reflexivity|].
    intros [_ Hto] k Hk.
    apply (Hto (k_user s) buf (data_blocks (k_sb s)) (data_block (meta s) ppos) n (fst c));
      [apply surjective_pairing | exact Hc | exact Hk].
  - intros Hc. rewrite Hr.
    destruct (Z.eqb_spec (fst c) 0); [contradiction|reflexivity].
Qed.

(** ** C8: a write stops at the end of the block *)

(** C8.  A successful write from a position [0 <= ppos < BLOCK_SIZE] with
    [ppos + len > BLOCK_SIZE] copies and returns [BLOCK_SIZE - ppos] bytes,
    leaves the cursor at [BLOCK_SIZE] and the size at
    [max size BLOCK_SIZE], which is [BLOCK_SIZE] for a file that fitted its
    block. *)
Theorem write_clips_to_block (s : kstate) (buf len ppos : Z) :
  block_size_ok -> 0 <= ppos < BLOCK_SIZE ->
  ppos + len > BLOCK_SIZE -> ppos + len < 2 ^ 64 ->
  fst (write_copy s buf len ppos) = 0 ->
  write_len len ppos = BLOCK_SIZE - ppos /\
  ret (osfs_write s buf len ppos) = BLOCK_SIZE - ppos /\
  pos (osfs_write s buf len ppos) = BLOCK_SIZE /\
  i_size (meta (st (osfs_write s buf len ppos))) = Z.max (i_size (meta s)) BLOCK_SIZE /\
  (i_size (meta s) <= BLOCK_SIZE ->
   i_size (meta (st (osfs_write s buf len ppos))) = BLOCK_SIZE).
Proof.
  intros HB Hp Hgt Hs H.
  assert (Hn : write_len len ppos = BLOCK_SIZE - ppos).
  { rewrite write_len_in_block; try assumption; lia. }
  assert (Hpos : pos (osfs_write s buf len ppos) = BLOCK_SIZE).
  { rewrite (osfs_write_done _ _ _ _ H). simpl. rewrite Hn.
    unfold block_size_ok in HB.
    replace (ppos + (BLOCK_SIZE - ppos)) with BLOCK_SIZE by lia.
    rewrite u64_small, s64_small; lia. }
  split; [exact Hn|]. split; [|split; [exact Hpos|]].
  - rewrite (osfs_write_done _ _ _ _ H). simpl. rewrite Hn.
    unfold block_size_ok in HB. rewrite s64_small; lia.
  - rewrite (write_done_size _ _ _ _ HB H), Hpos. split; [reflexivity|lia].
Qed.

(** ** C9: the size only grows *)

(** C9.  A successful write, from a non-negative position, sets the size
    to [max size (ppos + count)], where [count] is the byte count it
    returns; the size never shrinks, and the VFS inode's size is set to the
    same value. *)
Theorem write_size_is_max (s : kstate) (buf len ppos : Z) :
  block_size_ok -> is_loff_t ppos -> 0 <= ppos -> is_size_t len ->
  fst (write_copy s buf len ppos) = 0 ->
  i_size (meta (st (osfs_write s buf len ppos))) =
    Z.max (i_size (meta s)) (ppos + ret (osfs_write s buf len ppos)) /\
  i_size (meta s) <= i_size (meta (st (osfs_write s buf len ppos))) /\
  Vfs.i_size (k_inode (st (osfs_write s buf len ppos))) =
    i_size (meta (st (osfs_write s buf len ppos))).
Proof.
  intros HB Hp Hp0 Hl H.
  assert (Hz : i_size (meta (st (osfs_write s buf len ppos))) =
               Z.max (i_size (meta s)) (ppos + ret (osfs_write s buf len ppos))).
  { rewrite (write_done_size _ _ _ _ HB H).
    rewrite (osfs_write_done _ _ _ _ H). simpl.
    rewrite (write_pos_ret len ppos HB Hp Hp0 Hl). reflexivity. }
  split; [exact Hz|]. split; [lia|].
  rewrite (osfs_write_done _ _ _ _ H). reflexivity.
Qed.

(** ** C10: a write of no bytes *)

(** C10, as amended.  A write of length 0 at a position inside the block
    whose copy succeeds returns 0 and leaves the cursor where it was.  The
    size becomes [max size ppos]: unchanged when the position is within
    the file, raised to the position when the cursor stood beyond the end.
    Both timestamps of the on-disk inode are set to one reading of the
    clock, and both of the VFS inode to the next reading. *)
Theorem write_nothing (s : kstate) (buf ppos : Z) :
  block_size_ok -> 0 <= ppos <= BLOCK_SIZE ->
  fst (write_copy s buf 0 ppos) = 0 ->
  ret (osfs_write s buf 0 ppos) = 0 /\
  pos (osfs_write s buf 0 ppos) = ppos /\
  i_size (meta (st (osfs_write s buf 0 ppos))) = Z.max (i_size (meta s)) ppos /\
  (ppos <= i_size (meta s) ->
   i_size (meta (st (osfs_write s buf 0 ppos))) = i_size (meta s)) /\
  __i_mtime (meta (st (osfs_write s buf 0 ppos))) = fst (current_time (k_clock s)) /\
  __i_ctime (meta (st (osfs_write s buf 0 ppos))) = fst (current_time (k_clock s)) /\
  Vfs.__i_mtime (k_inode (st (osfs_write s buf 0 ppos))) =
    fst (current_time (snd (current_time (k_clock s)))) /\
  Vfs.__i_ctime (k_inode (st (osfs_write s buf 0 ppos))) =
    fst (current_time (snd (current_time (k_clock s)))).
Proof.
  intros HB Hp H.
  assert (Hn : write_len 0 ppos = 0).
  { rewrite write_len_in_block; unfold block_size_ok in *; lia. }
  assert (Hpos : pos (osfs_write s buf 0 ppos) = ppos).
  { rewrite (osfs_write_done _ _ _ _ H). simpl. rewrite Hn.
    unfold block_size_ok in HB.
    rewrite Z.add_0_r, u64_small, s64_small; lia. }
  pose proof (write_done_size _ _ _ _ HB H) as Hz. rewrite Hpos in Hz.
  split; [|split; [exact Hpos|split; [exact Hz|split; [lia|]]]].
  - rewrite (osfs_write_done _ _ _ _ H). simpl. rewrite Hn. reflexivity.
  - rewrite (osfs_write_done _ _ _ _ H). simpl. auto.
Qed.

(** ** C1: writing, then reading back *)

Lemma user_holds_nil (u : uspace) (buf : Z) : user_holds u buf [].
Proof. intros k Hk. simpl in Hk. lia. Qed.

(** C1, as amended.  Let the copy primitives keep their contract, and take
    a file with a block ([i_blocks <> 0]), a position [p >= 0] and bytes
    [B] that fit the block from there ([p + length B <= BLOCK_SIZE]).  If
    the write of [B] at [p] does not fault, and the read of [length B]
    bytes at [p] that follows it does not fault either, then the write
    returns [length B], the read returns [length B] and advances the
    cursor by it, and the reader's buffer holds exactly [B]. *)
Theorem write_then_read (s : kstate) (buf dst p : Z) (B : list byte) :
  uaccess_ok K -> block_size_ok ->
  is_u32 (i_size (meta s)) -> i_blocks (meta s) <> 0 ->
  0 <= p -> p + Z.of_nat (length B) <= BLOCK_SIZE ->
  user_holds (k_user s) buf B ->
  let n := Z.of_nat (length B) in
  let w := osfs_write s buf n p in
  let r := osfs_read (st w) dst n p in
  ret w <> - EFAULT -> ret r <> - EFAULT ->
  ret w = n /\ ret r = n /\ pos r = p + n /\ user_holds (k_user (st r)) dst B.
Proof.
  intros [Hfrom Hto] HB Hz Hb Hp Hfit Hu n w r Hw Hr.
  assert (Hn0 : 0 <= n) by (unfold n; lia).
  (* the write *)
  assert (Hc : fst (write_copy s buf n p) = 0).
  { destruct (Z.eq_dec (fst (write_copy s buf n p)) 0) as [|Hne]; [assumption|].
    exfalso. apply Hw. apply (write_fault_size s buf n p Hne). }
  assert (Hlen : write_len n p = n).
  { unfold block_size_ok in HB. rewrite write_len_in_block; unfold block_size_ok; lia. }
  pose proof (osfs_write_done s buf n p Hc) as Hwd. cbv zeta in Hwd.
  fold w in Hwd. rewrite Hlen in Hwd.
  assert (Hpn : s64 (u64 (p + n)) = p + n).
  { unfold block_size_ok in HB. rewrite u64_small, s64_small; lia. }
  rewrite Hpn in Hwd.
  destruct (write_alloc_keeps s) as (Hs1 & Hb1 & _). cbv zeta in Hs1, Hb1.
  (* the state the read starts from *)
  set (oi := snd (write_alloc s)) in *.
  set (m := snd (write_copy s buf n p)) in *.
  assert (Hsize : i_size (meta (st w)) = Z.max (i_size (meta s)) (p + n)).
  { rewrite Hwd. unfold meta at 1. simpl. rewrite Hs1.
    unfold block_size_ok in HB. rewrite u32_small by lia. reflexivity. }
  assert (Hblocks : i_blocks (meta (st w)) = i_blocks (meta s)).
  { rewrite Hwd. unfold meta at 1. simpl. exact Hb1. }
  assert (Hblk : data_block (meta (st w)) p = data_block oi p).
  { rewrite Hwd. reflexivity. }
  assert (Hdata : data_blocks (k_sb (st w)) = m).
  { rewrite Hwd. reflexivity. }
  assert (Huser : k_user (st w) = k_user s).
  { rewrite Hwd. reflexivity. }
  (* what the block holds *)
  assert (Hm : forall k, (k < length B)%nat ->
               nth_error B k = Some (m (data_block oi p + Z.of_nat k))).
  { intros k Hk. rewrite <- (Hu k Hk).
    apply (Hfrom (k_user s) (data_blocks (fst (write_alloc s))) (data_block oi p) buf n
                 (fst (write_copy s buf n p)) m); [|exact Hc|unfold n; lia].
    unfold m, oi, write_copy. destruct (write_alloc s) as [sb1 oi1]. simpl.
    rewrite Hlen. apply surjective_pairing. }
  split.
  { rewrite Hwd. simpl. unfold block_size_ok in HB. apply s64_small. lia. }
  destruct (Z_lt_ge_dec p (i_size (meta (st w)))) as [Hlt|Hge].
  - (* the read reaches the copy *)
    assert (Hzw : is_u32 (i_size (meta (st w)))).
    { rewrite Hsize. unfold is_u32, block_size_ok in *. lia. }
    assert (Hbw : i_blocks (meta (st w)) <> 0) by (rewrite Hblocks; exact Hb).
    assert (Hsum : p + n < 2 ^ 64) by (unfold block_size_ok in HB; lia).
    pose proof (osfs_read_copy (st w) dst n p Hzw Hbw (conj Hp Hlt) Hn0 Hsum) as Hrd.
    cbv zeta in Hrd. fold r in Hrd.
    replace (Z.min n (i_size (meta (st w)) - p)) with n in Hrd by lia.
    rewrite Hblk, Hdata, Huser in Hrd.
    set (c := copy_to_user (k_user s) dst m (data_block oi p) n) in *.
    destruct (Z.eqb_spec (fst c) 0) as [Hc0|Hc0].
    + rewrite Hrd. simpl. split; [reflexivity|split; [reflexivity|]].
      intros k Hk. rewrite (Hm k Hk).
      apply (Hto (k_user s) dst m (data_block oi p) n (fst c));
        [apply surjective_pairing | exact Hc0 | unfold n; lia].
    + exfalso. apply Hr. rewrite Hrd. reflexivity.
  - (* nothing was written and the cursor is at the end of the file *)
    assert (Hn : n = 0) by lia.
    assert (HB0 : B = []) by (destruct B; [reflexivity|simpl in n; lia]).
    assert (Hrd : r = {| ret := 0; st := st w; pos := p |}).
    { unfold r, osfs_read. fold (meta (st w)).
      destruct (i_blocks (meta (st w)) =? 0); [reflexivity|].
      destruct (Z.geb_spec p (i_size (meta (st w)))); [reflexivity|lia]. }
    rewrite Hrd, Hn, HB0. simpl.
    split; [reflexivity|split; [lia|apply user_holds_nil]].
Qed.

End Properties.

(** * Further properties of the two operations *)

Section Further.
Context {K : Kernel}.

(** ** Reads *)

(** The two tests that end a read before any copy. *)
Lemma osfs_read_at_end (s : kstate) (buf len ppos : Z) :
  i_blocks (meta s) = 0 \/ i_size (meta s) <= ppos ->
  osfs_read s buf len ppos = {| ret := 0; st := s; pos := ppos |}.
Proof.
  intros H. unfold osfs_read. fold (meta s).
  destruct (Z.eqb_spec (i_blocks (meta s)) 0) as [|Hb]; [reflexivity|].
  destruct (Z.geb_spec ppos (i_size (meta s))); [reflexivity|].
  destruct H; [contradiction|lia].
Qed.

(** [osfs_read] changes nothing of the kernel's: whatever the arguments
    and the outcome, the inode (VFS and on-disk), the superblock with the
    data region and the allocator's bookkeeping, and the clock are as
    before.  Only the user's memory and the cursor can differ. *)
Theorem read_leaves_kernel_state (s : kstate) (buf len ppos : Z) :
  k_inode (st (osfs_read s buf len ppos)) = k_inode s /\
  k_sb (st (osfs_read s buf len ppos)) = k_sb s /\
  k_clock (st (osfs_read s buf len ppos)) = k_clock s.
Proof.
  unfold osfs_read.
  destruct (i_blocks _ =? 0); [repeat split|].
  destruct (ppos >=? _); [repeat split|].
  destruct (copy_to_user _ _ _ _ _) as [l u]. simpl.
  destruct (negb (l =? 0)); repeat split.
Qed.

(** From a non-negative position, a read either faults, returning
    [-EFAULT] with the cursor where it was, or returns a count between 0
    and the length asked for, advances the cursor by exactly that count,
    and never moves it beyond the recorded size unless it already stood
    there. *)
Theorem read_result_bounds (s : kstate) (buf len ppos : Z) :
  is_u32 (i_size (meta s)) -> 0 <= ppos -> 0 <= len -> ppos + len < 2 ^ 64 ->
  (ret (osfs_read s buf len ppos) = - EFAULT /\ pos (osfs_read s buf len ppos) = ppos) \/
  (0 <= ret (osfs_read s buf len ppos) <= len /\
   pos (osfs_read s buf len ppos) = ppos + ret (osfs_read s buf len ppos) /\
   pos (osfs_read s buf len ppos) <= Z.max ppos (i_size (meta s))).
Proof.
  intros Hz Hp Hl Hs.
  destruct (Z.eq_dec (i_blocks (meta s)) 0) as [Hb|Hb].
  { rewrite osfs_read_at_end by (left; exact Hb). simpl. right. lia. }
  destruct (Z_lt_ge_dec ppos (i_size (meta s))) as [Hlt|Hge].
  2:{ rewrite osfs_read_at_end by (right; lia). simpl. right. lia. }
  rewrite (osfs_read_copy s buf len ppos Hz Hb (conj Hp Hlt) Hl Hs).
  destruct (fst _ =? 0); simpl; [right; lia|left; split; reflexivity].
Qed.

(** Reading to the end: after a read that asked for at least the rest of
    the file and did not fault, the next read, of any length into any
    buffer, returns 0 and changes nothing: the caller's read loop ends. *)
Theorem read_then_eof (s : kstate) (buf len ppos buf' len' : Z) :
  is_u32 (i_size (meta s)) -> 0 <= ppos -> 0 <= len -> ppos + len < 2 ^ 64 ->
  i_size (meta s) - ppos <= len ->
  ret (osfs_read s buf len ppos) <> - EFAULT ->
  osfs_read (st (osfs_read s buf len ppos)) buf' len' (pos (osfs_read s buf len ppos)) =
  {| ret := 0; st := st (osfs_read s buf len ppos); pos := pos (osfs_read s buf len ppos) |}.
Proof.
  intros Hz Hp Hl Hs Hrest Hok.
  destruct (Z.eq_dec (i_blocks (meta s)) 0) as [Hb|Hb].
  { rewrite (osfs_read_at_end s buf len ppos) by (left; exact Hb). simpl.
    apply osfs_read_at_end. left. exact Hb. }
  destruct (Z_lt_ge_dec ppos (i_size (meta s))) as [Hlt|Hge].
  2:{ rewrite (osfs_read_at_end s buf len ppos) by (right; lia). simpl.
      apply osfs_read_at_end. right. lia. }
  revert Hok.
  rewrite (osfs_read_copy s buf len ppos Hz Hb (conj Hp Hlt) Hl Hs).
  destruct (fst _ =? 0); simpl; [intros _|intros Hok; contradiction].
  apply osfs_read_at_end. right. unfold meta. simpl. fold (meta s). lia.
Qed.

(** Two reads in a row, from a non-negative position, neither faulting:
    together they return what one read of the combined length returns,
    and leave the cursor that far on.  On a file with a block
    ([i_blocks <> 0]) that is [min (n1 + n2) (max 0 (size - ppos))] bytes,
    nothing when the position is at or past the size; on a file whose
    [i_blocks] is 0 it is nothing. *)
Theorem read_twice (s : kstate) (buf n1 buf' n2 ppos : Z) :
  is_u32 (i_size (meta s)) ->
  0 <= ppos -> 0 <= n1 -> 0 <= n2 -> ppos + n1 + n2 < 2 ^ 64 ->
  ret (osfs_read s buf n1 ppos) <> - EFAULT ->
  ret (osfs_read (st (osfs_read s buf n1 ppos)) buf' n2 (pos (osfs_read s buf n1 ppos)))
    <> - EFAULT ->
  (i_blocks (meta s) <> 0 ->
   ret (osfs_read s buf n1 ppos) +
   ret (osfs_read (st (osfs_read s buf n1 ppos)) buf' n2 (pos (osfs_read s buf n1 ppos)))
     = Z.min (n1 + n2) (Z.max 0 (i_size (meta s) - ppos))) /\
  (i_blocks (meta s) = 0 ->
   ret (osfs_read s buf n1 ppos) +
   ret (osfs_read (st (osfs_read s buf n1 ppos)) buf' n2 (pos (osfs_read s buf n1 ppos)))
     = 0) /\
  pos (osfs_read (st (osfs_read s buf n1 ppos)) buf' n2 (pos (osfs_read s buf n1 ppos)))
    = ppos +
      (ret (osfs_read s buf n1 ppos) +
       ret (osfs_read (st (osfs_read s buf n1 ppos)) buf' n2 (pos (osfs_read s buf n1 ppos)))).
Proof.
  intros Hz Hp H1 H2 Hs.
  destruct (Z.eq_dec (i_blocks (meta s)) 0) as [Hb|Hb].
  { rewrite (osfs_read_at_end s buf n1 ppos) by (left; exact Hb). simpl.
    rewrite (osfs_read_at_end s buf' n2 ppos) by (left; exact Hb). simpl.
    intros _ _. split; [intros Hne; contradiction|]. split; [reflexivity|lia]. }
  destruct (Z_lt_ge_dec ppos (i_size (meta s))) as [Hlt|Hge].
  2:{ rewrite (osfs_read_at_end s buf n1 ppos) by (right; lia). simpl.
      rewrite (osfs_read_at_end s buf' n2 ppos) by (right; lia). simpl.
      intros _ _. split; [intros _; lia|]. split; [intros H0; contradiction|lia]. }
  rewrite (osfs_read_copy s buf n1 ppos Hz Hb (conj Hp Hlt) H1) by lia.
  destruct (fst _ =? 0); simpl; [intros _|intros Hok; contradiction].
  set (u := snd _).
  set (p1 := ppos + Z.min n1 (i_size (meta s) - ppos)).
  assert (Hm : meta (with_user u s) = meta s) by reflexivity.
  destruct (Z_lt_ge_dec p1 (i_size (meta s))) as [Hlt1|Hge1].
  - rewrite (osfs_read_copy (with_user u s) buf' n2 p1); rewrite ?Hm; unfold p1 in *;
      try assumption; try lia.
    destruct (fst _ =? 0); simpl; [intros _|intros Hok; contradiction].
    split; [intros _; lia|]. split; [intros H0; contradiction|lia].
  - rewrite (osfs_read_at_end (with_user u s) buf' n2 p1) by (right; rewrite Hm; lia).
    simpl. intros _. unfold p1 in *.
    split; [intros _; lia|]. split; [intros H0; contradiction|lia].
Qed.

(** ** Writes *)

Lemma write_keeps_blocks_user (s : kstate) (buf len ppos : Z) :
  i_blocks (meta (st (osfs_write s buf len ppos))) = i_blocks (meta s) /\
  k_user (st (osfs_write s buf len ppos)) = k_user s.
Proof.
  destruct (write_alloc_keeps s) as (_ & Hb & _).
  destruct (Z.eq_dec (fst (write_copy s buf len ppos)) 0) as [H|H].
  - rewrite (osfs_write_done _ _ _ _ H). split; [exact Hb|reflexivity].
  - rewrite (osfs_write_fault _ _ _ _ H). split; [exact Hb|reflexivity].
Qed.

Lemma write_sb (s : kstate) (buf len ppos : Z) :
  k_sb (st (osfs_write s buf len ppos)) =
  with_data (snd (write_copy s buf len ppos)) (fst (write_alloc s)).
Proof.
  destruct (Z.eq_dec (fst (write_copy s buf len ppos)) 0) as [H|H].
  - rewrite (osfs_write_done _ _ _ _ H). reflexivity.
  - rewrite (osfs_write_fault _ _ _ _ H). reflexivity.
Qed.

Lemma write_copy_allocated (s : kstate) (buf len ppos : Z) :
  i_block (meta s) <> 0 ->
  write_copy s buf len ppos =
  copy_from_user (k_user s) (data_blocks (k_sb s)) (data_block (meta s) ppos) buf
                 (write_len len ppos).
Proof.
  intros H. unfold write_copy. rewrite (write_alloc_allocated _ H). reflexivity.
Qed.

Lemma write_ret_fault (s : kstate) (buf len ppos : Z) :
  block_size_ok -> 0 <= ppos <= BLOCK_SIZE -> 0 <= len -> ppos + len < 2 ^ 64 ->
  ret (osfs_write s buf len ppos) <> - EFAULT ->
  fst (write_copy s buf len ppos) = 0.
Proof.
  intros HB Hp Hl Hs Hok.
  destruct (Z.eq_dec (fst (write_copy s buf len ppos)) 0) as [|Hne]; [assumption|].
  exfalso. apply Hok. apply (write_fault_size s buf len ppos Hne).
Qed.

(** A successful write inside the block, stated once for the short and the
    full case. *)
Lemma osfs_write_in_block (s : kstate) (buf len ppos : Z) :
  block_size_ok -> 0 <= ppos <= BLOCK_SIZE -> 0 <= len -> ppos + len < 2 ^ 64 ->
  fst (write_copy s buf len ppos) = 0 ->
  ret (osfs_write s buf len ppos) = Z.min len (BLOCK_SIZE - ppos) /\
  pos (osfs_write s buf len ppos) = ppos + Z.min len (BLOCK_SIZE - ppos) /\
  i_size (meta (st (osfs_write s buf len ppos))) =
    Z.max (i_size (meta s)) (ppos + Z.min len (BLOCK_SIZE - ppos)).
Proof.
  intros HB Hp Hl Hs H.
  pose proof (write_len_in_block len ppos HB Hp Hl Hs) as Hn.
  rewrite (write_done_size _ _ _ _ HB H).
  rewrite (osfs_write_done _ _ _ _ H). simpl. rewrite Hn.
  unfold block_size_ok in HB.
  rewrite u64_small, !s64_small by lia. repeat split.
Qed.

(** [osfs_write] never sets [i_blocks], the field [osfs_read] tests.  On a
    file whose [i_blocks] is 0 it stays 0 through any write, and the read
    that follows, at any position, returns 0 bytes: what was written
    cannot be read back until something else sets [i_blocks]. *)
Theorem write_leaves_i_blocks (s : kstate) (buf len ppos buf' len' ppos' : Z) :
  i_blocks (meta s) = 0 ->
  i_blocks (meta (st (osfs_write s buf len ppos))) = 0 /\
  osfs_read (st (osfs_write s buf len ppos)) buf' len' ppos' =
  {| ret := 0; st := st (osfs_write s buf len ppos); pos := ppos' |}.
Proof.
  intros H0.
  destruct (write_keeps_blocks_user s buf len ppos) as [Hb _].
  rewrite H0 in Hb. split; [exact Hb|].
  apply osfs_read_at_end. left. exact Hb.
Qed.

(** The allocator is called at most once per file.  Once a write has left
    the file with a block (it had one, or the allocator stored a non-zero
    index), the block index is not zero, and a further write, whatever its
    arguments and outcome, keeps that index and leaves the allocator's
    bookkeeping untouched. *)
Theorem write_allocates_once (s : kstate) (buf len ppos buf' len' ppos' : Z) :
  (i_block (meta s) = 0 -> u32 (snd (osfs_alloc_data_block (k_sb s) 0)) <> 0) ->
  i_block (meta (st (osfs_write s buf len ppos))) <> 0 /\
  i_block (meta (st (osfs_write (st (osfs_write s buf len ppos)) buf' len' ppos'))) =
    i_block (meta (st (osfs_write s buf len ppos))) /\
  block_alloc (k_sb (st (osfs_write (st (osfs_write s buf len ppos)) buf' len' ppos'))) =
    block_alloc (k_sb (st (osfs_write s buf len ppos))).
Proof.
  intros Ha.
  assert (H1 : i_block (meta (st (osfs_write s buf len ppos))) <> 0).
  { rewrite write_i_block.
    destruct (Z.eq_dec (i_block (meta s)) 0) as [H0|H0].
    - specialize (Ha H0). unfold write_alloc. fold (meta s). rewrite H0. simpl.
      destruct (osfs_alloc_data_block (k_sb s) 0) as [[r sb] b]. exact Ha.
    - rewrite (write_alloc_allocated _ H0). exact H0. }
  split; [exact H1|].
  set (s1 := st (osfs_write s buf len ppos)) in *.
  split.
  - rewrite write_i_block, (write_alloc_allocated _ H1). reflexivity.
  - rewrite write_sb, (write_alloc_allocated _ H1). reflexivity.
Qed.

(** A successful write inside the block is a short write at worst: it
    returns [min len (BLOCK_SIZE - ppos)], never more than asked for,
    advances the cursor by that count to a position of the block, and, the
    copy primitive keeping its contract, the file's block then holds the
    first bytes of the user's buffer from offset [ppos] on. *)
Theorem write_in_block (s : kstate) (buf len ppos : Z) :
  block_size_ok -> 0 <= ppos <= BLOCK_SIZE -> 0 <= len -> ppos + len < 2 ^ 64 ->
  fst (write_copy s buf len ppos) = 0 ->
  ret (osfs_write s buf len ppos) = Z.min len (BLOCK_SIZE - ppos) /\
  0 <= ret (osfs_write s buf len ppos) <= len /\
  pos (osfs_write s buf len ppos) = ppos + ret (osfs_write s buf len ppos) /\
  pos (osfs_write s buf len ppos) <= BLOCK_SIZE /\
  (uaccess_ok K -> forall k, 0 <= k < ret (osfs_write s buf len ppos) ->
     upeek (k_user s) (buf + k) =
     Some (data_blocks (k_sb (st (osfs_write s buf len ppos)))
                       (data_block (meta (st (osfs_write s buf len ppos))) ppos + k))).
Proof.
  intros HB Hp Hl Hs H.
  destruct (osfs_write_in_block s buf len ppos HB Hp Hl Hs H) as (Hr & Hq & _).
  rewrite Hq, Hr.
  split; [reflexivity|]. split; [lia|]. split; [reflexivity|]. split; [lia|].
  intros [Hfrom _] k Hk.
  rewrite write_sb. simpl.
  replace (data_block (meta (st (osfs_write s buf len ppos))) ppos)
    with (data_block (snd (write_alloc s)) ppos)
    by (unfold data_block; rewrite write_i_block; reflexivity).
  apply (Hfrom (k_user s) (data_blocks (fst (write_alloc s)))
               (data_block (snd (write_alloc s)) ppos) buf (write_len len ppos)
               (fst (write_copy s buf len ppos)));
    [|exact H|rewrite (write_len_in_block len ppos HB Hp Hl Hs); exact Hk].
  unfold write_copy. destruct (write_alloc s) as [sb oi]. simpl.
  apply surjective_pairing.
Qed.

(** A write with the cursor beyond the block (reachable by seeking): Step 3
    subtracts the position from [BLOCK_SIZE] and the negative difference
    becomes the [size_t] length [2^64 - (ppos - BLOCK_SIZE)], more than
    [2^63] bytes, which is what [copy_from_user] is asked for.  When the
    primitive refuses, the write returns [-EFAULT] with cursor and size
    unchanged; were it to report success, the write would return the
    negative number [BLOCK_SIZE - ppos] and pull the cursor back to
    [BLOCK_SIZE]. *)
Theorem write_beyond_block (s : kstate) (buf len ppos : Z) :
  block_size_ok -> BLOCK_SIZE < ppos -> is_loff_t ppos -> 0 <= len ->
  ppos + len < 2 ^ 64 ->
  write_len len ppos = 2 ^ 64 - (ppos - BLOCK_SIZE) /\
  2 ^ 63 < write_len len ppos /\
  (fst (write_copy s buf len ppos) <> 0 ->
     ret (osfs_write s buf len ppos) = - EFAULT /\
     pos (osfs_write s buf len ppos) = ppos /\
     i_size (meta (st (osfs_write s buf len ppos))) = i_size (meta s)) /\
  (fst (write_copy s buf len ppos) = 0 ->
     ret (osfs_write s buf len ppos) = BLOCK_SIZE - ppos /\
     ret (osfs_write s buf len ppos) < 0 /\
     pos (osfs_write s buf len ppos) = BLOCK_SIZE).
Proof.
  unfold block_size_ok, is_loff_t. intros HB Hp Ht Hl Hs.
  assert (Hn : write_len len ppos = 2 ^ 64 - (ppos - BLOCK_SIZE)).
  { unfold write_len.
    rewrite (u64_small (ppos + len)), (u64_small BLOCK_SIZE) by lia.
    destruct (Z.gtb_spec (ppos + len) BLOCK_SIZE); [|lia].
    rewrite u64_s64, (u64_wrap (BLOCK_SIZE - ppos) (-1)); lia. }
  split; [exact Hn|]. split; [lia|]. split.
  - intros H. apply (write_fault_size s buf len ppos H).
  - intros H. rewrite (osfs_write_done _ _ _ _ H). simpl. rewrite Hn.
    rewrite (s64_wrap (2 ^ 64 - (ppos - BLOCK_SIZE)) 1) by lia.
    rewrite (u64_wrap (ppos + (2 ^ 64 - (ppos - BLOCK_SIZE))) 1) by lia.
    rewrite s64_small by lia.
    repeat split; lia.
Qed.

(** After a write that was cut at the end of the block, the remainder can
    never be written: the cursor stands at [BLOCK_SIZE], and every further
    write from there, of any length, is clipped to length 0; it returns 0,
    or [-EFAULT] if the copy of no bytes fails, and the cursor stays. *)
Theorem write_after_short_write (s : kstate) (buf len ppos buf' len' : Z) :
  block_size_ok -> 0 <= ppos < BLOCK_SIZE ->
  ppos + len > BLOCK_SIZE -> ppos + len < 2 ^ 64 ->
  0 <= len' -> BLOCK_SIZE + len' < 2 ^ 64 ->
  fst (write_copy s buf len ppos) = 0 ->
  ret (osfs_write s buf len ppos) < len /\
  pos (osfs_write s buf len ppos) = BLOCK_SIZE /\
  write_len len' (pos (osfs_write s buf len ppos)) = 0 /\
  (ret (osfs_write (st (osfs_write s buf len ppos)) buf' len' (pos (osfs_write s buf len ppos))) = 0 \/
   ret (osfs_write (st (osfs_write s buf len ppos)) buf' len' (pos (osfs_write s buf len ppos))) = - EFAULT) /\
  pos (osfs_write (st (osfs_write s buf len ppos)) buf' len' (pos (osfs_write s buf len ppos)))
    = BLOCK_SIZE.
Proof.
  intros HB Hp Hgt Hs Hl' Hs' H.
  destruct (osfs_write_in_block s buf len ppos HB ltac:(lia) ltac:(lia) Hs H)
    as (Hr & Hq & _).
  assert (Hend : pos (osfs_write s buf len ppos) = BLOCK_SIZE) by lia.
  rewrite Hend.
  assert (HB' := HB). unfold block_size_ok in HB'.
  assert (Hn : write_len len' BLOCK_SIZE = 0).
  { rewrite write_len_in_block; try assumption; lia. }
  split; [lia|]. split; [reflexivity|]. split; [exact Hn|].
  set (s1 := st (osfs_write s buf len ppos)).
  destruct (Z.eq_dec (fst (write_copy s1 buf' len' BLOCK_SIZE)) 0) as [H2|H2].
  - assert (Hp' : 0 <= BLOCK_SIZE <= BLOCK_SIZE) by lia.
    destruct (osfs_write_in_block s1 buf' len' BLOCK_SIZE HB Hp' Hl' Hs' H2)
      as (Hr2 & Hq2 & _).
    split; [left|]; lia.
  - destruct (write_fault_size s1 buf' len' BLOCK_SIZE H2) as (Hr2 & Hq2 & _).
    split; [right; exact Hr2|exact Hq2].
Qed.

(** Every successful write stamps both inodes and keeps them in step: the
    on-disk inode's modification and change time are one reading of the
    clock, the VFS inode's are the reading after it, the clock has been
    read exactly twice, and the VFS inode's size is the on-disk size. *)
Theorem write_stamps (s : kstate) (buf len ppos : Z) :
  fst (write_copy s buf len ppos) = 0 ->
  __i_mtime (meta (st (osfs_write s buf len ppos))) = fst (current_time (k_clock s)) /\
  __i_ctime (meta (st (osfs_write s buf len ppos))) = fst (current_time (k_clock s)) /\
  Vfs.__i_mtime (k_inode (st (osfs_write s buf len ppos))) =
    fst (current_time (snd (current_time (k_clock s)))) /\
  Vfs.__i_ctime (k_inode (st (osfs_write s buf len ppos))) =
    fst (current_time (snd (current_time (k_clock s)))) /\
  k_clock (st (osfs_write s buf len ppos)) =
    snd (current_time (snd (current_time (k_clock s)))) /\
  Vfs.i_size (k_inode (st (osfs_write s buf len ppos))) =
    i_size (meta (st (osfs_write s buf len ppos))).
Proof.
  intros H. rewrite (osfs_write_done _ _ _ _ H). simpl. repeat split.
Qed.

(** On a file that has its block, a write from a position of the block
    stays inside the block, whether it succeeds or faults: the copy
    primitive changing only the bytes it is given, no byte of the data
    region before the block's first or after its last byte is changed.
    In particular the block of any other index is left as it was, as long
    as neither block's offset wraps around 32 bits. *)
Theorem write_stays_in_block (s : kstate) (buf len ppos : Z) :
  uaccess_frame K -> block_size_ok -> i_block (meta s) <> 0 ->
  0 <= ppos <= BLOCK_SIZE -> 0 <= len -> ppos + len < 2 ^ 64 ->
  (forall a, a < data_block (meta s) 0 \/ data_block (meta s) 0 + BLOCK_SIZE <= a ->
     data_blocks (k_sb (st (osfs_write s buf len ppos))) a = data_blocks (k_sb s) a) /\
  (forall oi off,
     0 <= i_block (meta s) -> (i_block (meta s) + 1) * BLOCK_SIZE <= 2 ^ 32 ->
     0 <= i_block oi -> (i_block oi + 1) * BLOCK_SIZE <= 2 ^ 32 ->
     i_block oi <> i_block (meta s) -> 0 <= off < BLOCK_SIZE ->
     data_blocks (k_sb (st (osfs_write s buf len ppos))) (data_block oi off) =
     data_blocks (k_sb s) (data_block oi off)).
Proof.
  intros Hf HB Hb Hp Hl Hs.
  assert (Hout : forall a,
            a < data_block (meta s) 0 \/ data_block (meta s) 0 + BLOCK_SIZE <= a ->
            data_blocks (k_sb (st (osfs_write s buf len ppos))) a = data_blocks (k_sb s) a).
  { intros a Ha.
    rewrite write_sb, (write_copy_allocated _ _ _ _ Hb). simpl.
    rewrite (write_len_in_block len ppos HB Hp Hl Hs).
    apply Hf; [lia|]. unfold data_block in *. lia. }
  split; [exact Hout|].
  intros oi off Hb0 Hbw Ho0 How Hne Hoff.
  apply Hout. unfold data_block, block_size_ok in *.
  rewrite !u32_small by nia.
  destruct (Z_lt_ge_dec (i_block oi) (i_block (meta s))); [left|right]; nia.
Qed.

(** ** Writes and reads together *)

(** A write that fits the block, on a file that has its block: what it
    leaves behind, in terms of the one call of [copy_from_user]. *)
Lemma osfs_write_fits (s : kstate) (buf n p : Z) :
  block_size_ok -> i_block (meta s) <> 0 ->
  0 <= p -> 0 <= n -> p + n <= BLOCK_SIZE ->
  ret (osfs_write s buf n p) <> - EFAULT ->
  fst (copy_from_user (k_user s) (data_blocks (k_sb s)) (data_block (meta s) p) buf n) = 0 /\
  ret (osfs_write s buf n p) = n /\
  pos (osfs_write s buf n p) = p + n /\
  data_blocks (k_sb (st (osfs_write s buf n p))) =
    snd (copy_from_user (k_user s) (data_blocks (k_sb s)) (data_block (meta s) p) buf n) /\
  k_user (st (osfs_write s buf n p)) = k_user s /\
  i_block (meta (st (osfs_write s buf n p))) = i_block (meta s) /\
  i_blocks (meta (st (osfs_write s buf n p))) = i_blocks (meta s) /\
  i_size (meta (st (osfs_write s buf n p))) = Z.max (i_size (meta s)) (p + n).
Proof.
  intros HB Hb Hp Hn Hfit Hok.
  assert (HB' := HB). unfold block_size_ok in HB'.
  assert (Hp' : 0 <= p <= BLOCK_SIZE) by lia.
  assert (Hs : p + n < 2 ^ 64) by lia.
  pose proof (write_ret_fault s buf n p HB Hp' Hn Hs Hok) as Hc.
  destruct (osfs_write_in_block s buf n p HB Hp' Hn Hs Hc) as (Hr & Hq & Hz).
  destruct (write_keeps_blocks_user s buf n p) as (Hbl & Hu).
  replace (Z.min n (BLOCK_SIZE - p)) with n in * by lia.
  pose proof (write_copy_allocated s buf n p Hb) as Hw.
  rewrite (write_len_in_block n p HB Hp' Hn Hs) in Hw.
  replace (Z.min n (BLOCK_SIZE - p)) with n in * by lia.
  rewrite <- Hw.
  split; [exact Hc|]. split; [exact Hr|]. split; [exact Hq|].
  split; [rewrite write_sb; reflexivity|]. split; [exact Hu|].
  split; [rewrite write_i_block, (write_alloc_allocated _ Hb); reflexivity|].
  split; [exact Hbl|exact Hz].
Qed.

(** The bytes a successful copy from a buffer holding [B] leaves. *)
Lemma copy_from_user_holds (u : uspace) (m : kmem) (to buf : Z) (B : list byte) :
  uaccess_ok K -> user_holds u buf B ->
  fst (copy_from_user u m to buf (Z.of_nat (length B))) = 0 ->
  forall k, (k < length B)%nat ->
    nth_error B k = Some (snd (copy_from_user u m to buf (Z.of_nat (length B))) (to + Z.of_nat k)).
Proof.
  intros [Hfrom _] Hu Hc k Hk. rewrite <- (Hu k Hk).
  apply (Hfrom u m to buf (Z.of_nat (length B))
               (fst (copy_from_user u m to buf (Z.of_nat (length B)))));
    [apply surjective_pairing | exact Hc | lia].
Qed.

(** Step 2 on a file that has a block or is given one. *)
Lemma write_alloc_supplied (s : kstate) :
  (i_block (meta s) = 0 -> u32 (snd (osfs_alloc_data_block (k_sb s) 0)) <> 0) ->
  i_block (snd (write_alloc s)) <> 0.
Proof.
  intros Ha.
  destruct (Z.eq_dec (i_block (meta s)) 0) as [H0|H0].
  - specialize (Ha H0). unfold write_alloc. fold (meta s). rewrite H0. simpl.
    destruct (osfs_alloc_data_block (k_sb s) 0) as [[r sb] b]. exact Ha.
  - rewrite (write_alloc_allocated _ H0). exact H0.
Qed.

(** A write that fits the block, on any file: what it leaves behind, in
    terms of Step 2 and the one call of [copy_from_user]. *)
Lemma osfs_write_fits_any (s : kstate) (buf n p : Z) :
  block_size_ok -> 0 <= p -> 0 <= n -> p + n <= BLOCK_SIZE ->
  ret (osfs_write s buf n p) <> - EFAULT ->
  fst (copy_from_user (k_user s) (data_blocks (fst (write_alloc s)))
                      (data_block (snd (write_alloc s)) p) buf n) = 0 /\
  pos (osfs_write s buf n p) = p + n /\
  data_blocks (k_sb (st (osfs_write s buf n p))) =
    snd (copy_from_user (k_user s) (data_blocks (fst (write_alloc s)))
                        (data_block (snd (write_alloc s)) p) buf n) /\
  k_user (st (osfs_write s buf n p)) = k_user s /\
  i_block (meta (st (osfs_write s buf n p))) = i_block (snd (write_alloc s)) /\
  i_blocks (meta (st (osfs_write s buf n p))) = i_blocks (meta s) /\
  i_size (meta (st (osfs_write s buf n p))) = Z.max (i_size (meta s)) (p + n).
Proof.
  intros HB Hp Hn Hfit Hok.
  assert (HB' := HB). unfold block_size_ok in HB'.
  assert (Hp' : 0 <= p <= BLOCK_SIZE) by lia.
  assert (Hs : p + n < 2 ^ 64) by lia.
  pose proof (write_ret_fault s buf n p HB Hp' Hn Hs Hok) as Hc.
  destruct (osfs_write_in_block s buf n p HB Hp' Hn Hs Hc) as (Hr & Hq & Hz).
  destruct (write_keeps_blocks_user s buf n p) as (Hbl & Hu).
  replace (Z.min n (BLOCK_SIZE - p)) with n in * by lia.
  assert (Hw : write_copy s buf n p =
               copy_from_user (k_user s) (data_blocks (fst (write_alloc s)))
                              (data_block (snd (write_alloc s)) p) buf n).
  { unfold write_copy. destruct (write_alloc s) as [sb oi]. simpl.
    rewrite (write_len_in_block n p HB Hp' Hn Hs).
    replace (Z.min n (BLOCK_SIZE - p)) with n by lia. reflexivity. }
  rewrite <- Hw.
  split; [exact Hc|]. split; [exact Hq|].
  split; [rewrite write_sb; reflexivity|]. split; [exact Hu|].
  split; [apply write_i_block|]. split; [exact Hbl|exact Hz].
Qed.

(** A write that fits the block, then a read of a range that does not
    overlap the written one: the read delivers what the file's block, the
    one Step 2 left the file with, held before the copy. *)
Lemma osfs_write_read_elsewhere (s : kstate) (buf n p dst m q : Z) :
  uaccess_ok K -> uaccess_frame K -> block_size_ok ->
  is_u32 (i_size (meta s)) -> i_blocks (meta s) <> 0 ->
  0 <= p -> 0 <= n -> p + n <= BLOCK_SIZE ->
  0 <= q < Z.max (i_size (meta s)) (p + n) -> 0 <= m ->
  q + m <= p \/ p + n <= q -> q + m < 2 ^ 64 ->
  ret (osfs_write s buf n p) <> - EFAULT ->
  ret (osfs_read (st (osfs_write s buf n p)) dst m q) <> - EFAULT ->
  ret (osfs_read (st (osfs_write s buf n p)) dst m q) =
    Z.min m (Z.max (i_size (meta s)) (p + n) - q) /\
  forall k, 0 <= k < ret (osfs_read (st (osfs_write s buf n p)) dst m q) ->
    upeek (k_user (st (osfs_read (st (osfs_write s buf n p)) dst m q))) (dst + k) =
    Some (data_blocks (fst (write_alloc s)) (data_block (snd (write_alloc s)) q + k)).
Proof.
  intros [Hfrom Hto] Hf HB Hz Hbl Hp Hn Hfit Hq Hm Hdis Hs Hw Hr.
  destruct (osfs_write_fits_any s buf n p HB Hp Hn Hfit Hw)
    as (_ & _ & Hdata & Huser & Hblk & Hblocks & Hsize).
  set (s1 := st (osfs_write s buf n p)) in *.
  set (sb0 := fst (write_alloc s)) in *. set (oi0 := snd (write_alloc s)) in *.
  assert (HB' := HB). unfold block_size_ok in HB'. unfold is_u32 in Hz.
  assert (Hz1 : is_u32 (i_size (meta s1))) by (unfold is_u32; lia).
  assert (Hb1 : i_blocks (meta s1) <> 0) by (rewrite Hblocks; exact Hbl).
  assert (Hq1 : 0 <= q < i_size (meta s1)) by lia.
  pose proof (osfs_read_copy s1 dst m q Hz1 Hb1 Hq1 Hm Hs) as Hrd. cbv zeta in Hrd.
  assert (Hoff : data_block (meta s1) q = data_block oi0 q).
  { unfold data_block. rewrite Hblk. reflexivity. }
  rewrite Hoff, Hsize in Hrd.
  set (cnt := Z.min m (Z.max (i_size (meta s)) (p + n) - q)) in *.
  set (c := copy_to_user (k_user s1) dst (data_blocks (k_sb s1)) (data_block oi0 q) cnt) in *.
  revert Hr. rewrite Hrd.
  destruct (Z.eqb_spec (fst c) 0) as [Hc0|Hc0]; simpl; [intros _|intros Hr; contradiction].
  split; [reflexivity|].
  intros k Hk.
  rewrite (Hto (k_user s1) dst (data_blocks (k_sb s1)) (data_block oi0 q) cnt (fst c) (snd c));
    [|apply surjective_pairing|exact Hc0|exact Hk].
  f_equal. rewrite Hdata. apply Hf; [exact Hn|].
  unfold data_block, cnt in *. lia.
Qed.

(** Overwriting in place does not disturb the rest of the file.  Take a
    file that has its block ([i_block <> 0]) and [i_blocks <> 0], and
    copy primitives that keep their contracts.  After a write that fits
    the block and does not fault, a read that does not fault, of a range
    starting inside the file as it was and not overlapping the written
    range, returns at least as many bytes as before the write would have
    allowed, and they are the bytes the block held before the write. *)
Theorem write_then_read_elsewhere (s : kstate) (buf n p dst m q : Z) :
  uaccess_ok K -> uaccess_frame K -> block_size_ok ->
  is_u32 (i_size (meta s)) -> i_blocks (meta s) <> 0 -> i_block (meta s) <> 0 ->
  0 <= p -> 0 <= n -> p + n <= BLOCK_SIZE ->
  0 <= q < i_size (meta s) -> 0 <= m -> q + m <= p \/ p + n <= q -> q + m < 2 ^ 64 ->
  ret (osfs_write s buf n p) <> - EFAULT ->
  ret (osfs_read (st (osfs_write s buf n p)) dst m q) <> - EFAULT ->
  Z.min m (i_size (meta s) - q) <= ret (osfs_read (st (osfs_write s buf n p)) dst m q) <= m /\
  forall k, 0 <= k < ret (osfs_read (st (osfs_write s buf n p)) dst m q) ->
    upeek (k_user (st (osfs_read (st (osfs_write s buf n p)) dst m q))) (dst + k) =
    Some (data_blocks (k_sb s) (data_block (meta s) q + k)).
Proof.
  intros Hok Hf HB Hz Hbl Hb Hp Hn Hfit Hq Hm Hdis Hs Hw Hr.
  destruct (osfs_write_read_elsewhere s buf n p dst m q Hok Hf HB Hz Hbl Hp Hn Hfit
              ltac:(lia) Hm Hdis Hs Hw Hr) as (Hret & Hbytes).
  rewrite (write_alloc_allocated _ Hb) in Hbytes.
  split; [lia|exact Hbytes].
Qed.

(** Writing beyond the end of the file opens the gap to reads, and the gap
    is not cleared.  Take a file with [i_blocks <> 0] that has its block,
    or is given one by this write (the allocator storing a non-zero
    index), and copy primitives that keep their contracts.  With the
    cursor moved past the size, a write that fits the block and does not
    fault raises the size over the gap; a read inside the gap, which
    returned 0 before the write, now returns (if it does not fault) all
    the bytes asked for, and they are whatever the file's block, as Step 2
    left it, held there before the copy: for a file that had its block,
    what that block held before the write. *)
Theorem write_beyond_size_exposes_block (s : kstate) (buf n p dst m q : Z) :
  uaccess_ok K -> uaccess_frame K -> block_size_ok ->
  is_u32 (i_size (meta s)) -> i_blocks (meta s) <> 0 ->
  (i_block (meta s) = 0 -> u32 (snd (osfs_alloc_data_block (k_sb s) 0)) <> 0) ->
  0 <= n -> p + n <= BLOCK_SIZE ->
  i_size (meta s) <= q -> 0 < m -> q + m <= p ->
  ret (osfs_write s buf n p) <> - EFAULT ->
  ret (osfs_read (st (osfs_write s buf n p)) dst m q) <> - EFAULT ->
  ret (osfs_read s dst m q) = 0 /\
  i_block (meta (st (osfs_write s buf n p))) <> 0 /\
  ret (osfs_read (st (osfs_write s buf n p)) dst m q) = m /\
  (forall k, 0 <= k < m ->
     upeek (k_user (st (osfs_read (st (osfs_write s buf n p)) dst m q))) (dst + k) =
     Some (data_blocks (fst (write_alloc s)) (data_block (snd (write_alloc s)) q + k))) /\
  (i_block (meta s) <> 0 ->
   forall k, 0 <= k < m ->
     upeek (k_user (st (osfs_read (st (osfs_write s buf n p)) dst m q))) (dst + k) =
     Some (data_blocks (k_sb s) (data_block (meta s) q + k))).
Proof.
  intros Hok Hf HB Hz Hbl Ha Hn Hfit Hq Hm Hgap Hw Hr.
  assert (HB' := HB). unfold block_size_ok in HB'. unfold is_u32 in Hz.
  destruct (osfs_write_read_elsewhere s buf n p dst m q Hok Hf HB Hz Hbl
              ltac:(lia) Hn Hfit ltac:(lia) ltac:(lia) (or_introl Hgap) ltac:(lia) Hw Hr)
    as (Hret & Hbytes).
  split; [rewrite osfs_read_at_end by (right; exact Hq); reflexivity|].
  split; [rewrite write_i_block; apply write_alloc_supplied; exact Ha|].
  assert (Hm' : ret (osfs_read (st (osfs_write s buf n p)) dst m q) = m) by lia.
  split; [exact Hm'|].
  assert (Hall : forall k, 0 <= k < m ->
            upeek (k_user (st (osfs_read (st (osfs_write s buf n p)) dst m q))) (dst + k) =
            Some (data_blocks (fst (write_alloc s)) (data_block (snd (write_alloc s)) q + k))).
  { intros k Hk. apply Hbytes. lia. }
  split; [exact Hall|].
  intros Hb k Hk. rewrite (Hall k Hk), (write_alloc_allocated _ Hb). reflexivity.
Qed.

(** Appending and reading back.  Take a file with [i_blocks <> 0] that has
    its block, or is given one by the first write (the allocator storing a
    non-zero index), and copy primitives that keep their contracts.  Two
    writes in a row that together fit the block, the second from the
    cursor the first left, followed by a read of the combined length from
    where the first began: if none of the three faults, the read returns
    both buffers' bytes, one after the other. *)
Theorem write_write_read (s : kstate) (buf1 buf2 dst p : Z) (B1 B2 : list byte) :
  uaccess_ok K -> uaccess_frame K -> block_size_ok ->
  is_u32 (i_size (meta s)) -> i_blocks (meta s) <> 0 ->
  (i_block (meta s) = 0 -> u32 (snd (osfs_alloc_data_block (k_sb s) 0)) <> 0) ->
  0 <= p -> p + Z.of_nat (length B1) + Z.of_nat (length B2) <= BLOCK_SIZE ->
  user_holds (k_user s) buf1 B1 -> user_holds (k_user s) buf2 B2 ->
  let w1 := osfs_write s buf1 (Z.of_nat (length B1)) p in
  let w2 := osfs_write (st w1) buf2 (Z.of_nat (length B2)) (pos w1) in
  let r := osfs_read (st w2) dst (Z.of_nat (length (B1 ++ B2))) p in
  ret w1 <> - EFAULT -> ret w2 <> - EFAULT -> ret r <> - EFAULT ->
  pos w2 = p + Z.of_nat (length (B1 ++ B2)) /\
  ret r = Z.of_nat (length (B1 ++ B2)) /\
  user_holds (k_user (st r)) dst (B1 ++ B2).
Proof.
  intros Hok Hf HB Hz Hbl Ha Hp Hfit Hu1 Hu2 w1 w2 r Hw1 Hw2 Hr.
  assert (HB' := HB). unfold block_size_ok in HB'. unfold is_u32 in Hz.
  set (n1 := Z.of_nat (length B1)) in *. set (n2 := Z.of_nat (length B2)) in *.
  assert (Hn1 : 0 <= n1) by (unfold n1; lia).
  assert (Hn2 : 0 <= n2) by (unfold n2; lia).
  assert (Hlen : Z.of_nat (length (B1 ++ B2)) = n1 + n2).
  { rewrite length_app. unfold n1, n2. lia. }
  (* the first write, after Step 2 *)
  pose proof (write_alloc_supplied s Ha) as Hb.
  destruct (osfs_write_fits_any s buf1 n1 p HB Hp Hn1 ltac:(lia) Hw1)
    as (Hc1 & Hq1 & Hd1 & Hus1 & Hblk1 & Hbls1 & Hsz1).
  fold w1 in Hq1, Hd1, Hus1, Hblk1, Hbls1, Hsz1.
  set (oi := snd (write_alloc s)) in *.
  set (m0 := data_blocks (fst (write_alloc s))) in *.
  set (to := data_block oi p) in *.
  set (m1 := snd (copy_from_user (k_user s) m0 to buf1 n1)) in *.
  pose proof (copy_from_user_holds (k_user s) m0 to buf1 B1 Hok Hu1 Hc1) as HB1.
  fold n1 m1 in HB1.
  (* the second write *)
  assert (Hb' : i_block (meta (st w1)) <> 0) by (rewrite Hblk1; exact Hb).
  unfold w2 in Hw2. rewrite Hq1 in Hw2.
  destruct (osfs_write_fits (st w1) buf2 n2 (p + n1) HB Hb' ltac:(lia) Hn2 ltac:(lia) Hw2)
    as (Hc2 & _ & Hq2 & Hd2 & Hus2 & Hblk2 & Hbls2 & Hsz2).
  assert (Hto2 : data_block (meta (st w1)) (p + n1) = to + n1).
  { unfold to, data_block. rewrite Hblk1. lia. }
  rewrite Hto2, Hus1, Hd1 in Hc2, Hd2.
  set (m2 := snd (copy_from_user (k_user s) m1 (to + n1) buf2 n2)) in *.
  pose proof (copy_from_user_holds (k_user s) m1 (to + n1) buf2 B2 Hok Hu2 Hc2) as HB2.
  fold n2 m2 in HB2.
  assert (Hkeep : forall k, 0 <= k < n1 -> m2 (to + k) = m1 (to + k)).
  { intros k Hk. apply Hf; [exact Hn2|lia]. }
  (* the read *)
  assert (Hw2eq : w2 = osfs_write (st w1) buf2 n2 (p + n1)) by (unfold w2; rewrite Hq1; reflexivity).
  rewrite <- Hw2eq in Hq2, Hd2, Hus2, Hblk2, Hbls2, Hsz2.
  split; [rewrite Hq2, Hlen; lia|].
  unfold r in *. rewrite Hlen in *.
  destruct (Z_lt_ge_dec p (i_size (meta (st w2)))) as [Hlt|Hge].
  - assert (Hz2 : is_u32 (i_size (meta (st w2)))) by (unfold is_u32; lia).
    assert (Hbl2 : i_blocks (meta (st w2)) <> 0) by (rewrite Hbls2, Hbls1; exact Hbl).
    pose proof (osfs_read_copy (st w2) dst (n1 + n2) p Hz2 Hbl2 (conj Hp Hlt)
                               ltac:(lia) ltac:(lia)) as Hrd.
    cbv zeta in Hrd.
    replace (Z.min (n1 + n2) (i_size (meta (st w2)) - p)) with (n1 + n2) in Hrd by lia.
    assert (Hoff : data_block (meta (st w2)) p = to).
    { unfold to, data_block. rewrite Hblk2, Hblk1. reflexivity. }
    rewrite Hoff, Hd2, Hus2, Hus1 in Hrd.
    set (c := copy_to_user (k_user s) dst m2 to (n1 + n2)) in *.
    revert Hr. rewrite Hrd.
    destruct (Z.eqb_spec (fst c) 0) as [Hc0|Hc0]; simpl; [intros _|intros Hr; contradiction].
    split; [reflexivity|].
    intros k Hk. rewrite length_app in Hk.
    destruct Hok as [_ Hto].
    rewrite (Hto (k_user s) dst m2 to (n1 + n2) (fst c) (snd c));
      [|apply surjective_pairing|exact Hc0|unfold n1, n2; lia].
    destruct (Nat.lt_ge_cases k (length B1)) as [Hk1|Hk1].
    + rewrite nth_error_app1 by exact Hk1.
      rewrite (HB1 k Hk1), Hkeep by (unfold n1; lia). reflexivity.
    + rewrite nth_error_app2 by exact Hk1.
      rewrite (HB2 (k - length B1)%nat) by lia.
      do 2 f_equal. unfold n1. lia.
  - assert (Hnil : B1 ++ B2 = []).
    { destruct (B1 ++ B2) eqn:E; [reflexivity|].
      apply (f_equal (@length byte)) in E. rewrite length_app in E. simpl in E.
      unfold n1, n2 in *. lia. }
    rewrite osfs_read_at_end by (right; lia). simpl.
    split; [lia|]. rewrite Hnil. intros k Hk. simpl in Hk. lia.
Qed.

(** ** Any arguments, any session *)

(** Whatever the length and the position, negative or beyond the block
    included, a write whose copy succeeds leaves the cursor at a position
    of the block, its end included. *)
Theorem write_cursor_in_block (s : kstate) (buf len ppos : Z) :
  block_size_ok -> fst (write_copy s buf len ppos) = 0 ->
  0 <= pos (osfs_write s buf len ppos) <= BLOCK_SIZE.
Proof.
  intros HB H. rewrite (osfs_write_done _ _ _ _ H). simpl.
  apply write_pos_range. exact HB.
Qed.

Lemma step_keeps (c : call) (s : kstate) (p : Z) :
  block_size_ok -> i_size (meta s) <= BLOCK_SIZE ->
  i_size (meta s) <= i_size (meta (fst (step c (s, p)))) <= BLOCK_SIZE /\
  i_blocks (meta (fst (step c (s, p)))) = i_blocks (meta s) /\
  (i_block (meta s) <> 0 ->
   i_block (meta (fst (step c (s, p)))) = i_block (meta s) /\
   block_alloc (k_sb (fst (step c (s, p)))) = block_alloc (k_sb s)).
Proof.
  intros HB Hle. destruct c as [buf len|buf len|q]; simpl.
  - destruct (read_keeps_meta s buf len p) as [-> ->].
    split; [lia|]. split; [reflexivity|]. intros _. split; reflexivity.
  - split; [apply write_size_bound; assumption|].
    split; [apply write_keeps_blocks_user|].
    intros Hb. rewrite write_i_block, write_sb, (write_alloc_allocated _ Hb).
    split; reflexivity.
  - split; [lia|]. split; [reflexivity|]. intros _. split; reflexivity.
Qed.

(** Through any session of reads, writes and seeks on a file that fits its
    block, with any arguments and whatever fails: the size never shrinks
    and never exceeds [BLOCK_SIZE]; [i_blocks] never changes; and once the
    file has a block, its block index and the allocator's bookkeeping
    never change, so no session allocates a second block. *)
Theorem run_keeps (cs : list call) (s : kstate) (p : Z) :
  block_size_ok -> i_size (meta s) <= BLOCK_SIZE ->
  i_size (meta s) <= i_size (meta (fst (run cs (s, p)))) <= BLOCK_SIZE /\
  i_blocks (meta (fst (run cs (s, p)))) = i_blocks (meta s) /\
  (i_block (meta s) <> 0 ->
   i_block (meta (fst (run cs (s, p)))) = i_block (meta s) /\
   block_alloc (k_sb (fst (run cs (s, p)))) = block_alloc (k_sb s)).
Proof.
  intros HB. revert s p.
  induction cs as [|c cs IH]; intros s p Hle; simpl.
  - split; [lia|]. split; [reflexivity|]. intros _. split; reflexivity.
  - destruct (step_keeps c s p HB Hle) as (Hsz & Hbl & Hblk).
    destruct (step c (s, p)) as [s1 p1] eqn:E. simpl in *.
    destruct (IH s1 p1 ltac:(lia)) as (Hsz' & Hbl' & Hblk').
    split; [lia|]. split; [congruence|].
    intros Hb. destruct (Hblk Hb) as [H1 H2].
    destruct (Hblk' ltac:(congruence)) as [H3 H4].
    split; congruence.
Qed.

End Further.

(** * The concrete kernel *)

(** The copy primitives of [flat_kernel] keep the contract [uaccess_ok]. *)
Lemma flat_copy_from_user_ok (u : flat_user) (m : kmem) (to from n r : Z) (m' : kmem) :
  flat_copy_from_user u m to from n = (r, m') -> r = 0 ->
  forall k, 0 <= k < n -> flat_peek u (from + k) = Some (m' (to + k)).
Proof.
  unfold flat_copy_from_user, flat_mapped. intros H Hr k Hk.
  destruct (Z.eqb_spec n 0) as [|Hn]; [lia|]. simpl in H.
  destruct (Z.ltb_spec 0 n); [|simpl in H; inversion H; lia].
  destruct (Z.leb_spec (ubase u) from); [|simpl in H; inversion H; lia].
  destruct (Z.leb_spec (from + n) (ubase u + Z.of_nat (length (ubytes u))));
    simpl in H; inversion H; subst; clear H; [|lia].
  set (off := Z.to_nat (from - ubase u)).
  set (bs := firstn (Z.to_nat n) (skipn off (ubytes u))).
  assert (Hlen : length bs = Z.to_nat n).
  { unfold bs. rewrite length_firstn, length_skipn. unfold off. lia. }
  unfold flat_peek, kstore.
  replace ((ubase u <=? from + k) && (from + k <? ubase u + Z.of_nat (length (ubytes u))))
    with true by (symmetry; apply andb_true_intro; split; [apply Z.leb_le|apply Z.ltb_lt]; lia).
  replace ((to <=? to + k) && (to + k <? to + Z.of_nat (length bs)))
    with true by (symmetry; apply andb_true_intro; split; [apply Z.leb_le|apply Z.ltb_lt]; lia).
  replace (to + k - to) with k by lia.
  rewrite <- (nth_error_nth' bs Byte.x00) by lia.
  unfold bs. rewrite nth_error_firstn.
  replace (Z.to_nat k <? Z.to_nat n)%nat with true by (symmetry; apply Nat.ltb_lt; lia).
  rewrite nth_error_skipn. f_equal. unfold off. lia.
Qed.

Lemma flat_copy_to_user_ok (u : flat_user) (to : Z) (m : kmem) (from n r : Z) (u' : flat_user) :
  flat_copy_to_user u to m from n = (r, u') -> r = 0 ->
  forall k, 0 <= k < n -> flat_peek u' (to + k) = Some (m (from + k)).
Proof.
  unfold flat_copy_to_user, flat_mapped. intros H Hr k Hk.
  destruct (Z.eqb_spec n 0) as [|Hn]; [lia|]. simpl in H.
  destruct (Z.ltb_spec 0 n); [|simpl in H; inversion H; lia].
  destruct (Z.leb_spec (ubase u) to); [|simpl in H; inversion H; lia].
  destruct (Z.leb_spec (to + n) (ubase u + Z.of_nat (length (ubytes u))));
    simpl in H; inversion H; subst; clear H; [|lia].
  set (off := Z.to_nat (to - ubase u)).
  assert (Hpre : length (firstn off (ubytes u)) = off).
  { apply firstn_length_le. unfold off. lia. }
  assert (Hmid : length (kload m from (Z.to_nat n)) = Z.to_nat n).
  { unfold kload. rewrite length_map, length_seq. reflexivity. }
  unfold flat_peek. simpl.
  rewrite !length_app, Hpre, Hmid, length_skipn.
  replace ((ubase u <=? to + k) &&
           (to + k <? ubase u + Z.of_nat (off + (Z.to_nat n + (length (ubytes u) - (off + Z.to_nat n))))))
    with true
    by (symmetry; apply andb_true_intro; split; [apply Z.leb_le|apply Z.ltb_lt]; unfold off; lia).
  rewrite nth_error_app2 by (rewrite Hpre; unfold off; lia).
  rewrite nth_error_app1 by (rewrite Hpre, Hmid; unfold off; lia).
  rewrite Hpre. unfold kload. rewrite nth_error_map, nth_error_seq.
  replace (Z.to_nat (to + k - ubase u) - off <? Z.to_nat n)%nat with true
    by (symmetry; apply Nat.ltb_lt; unfold off; lia).
  simpl. do 2 f_equal. unfold off. lia.
Qed.

Lemma flat_uaccess_ok : uaccess_ok flat_kernel.
Proof.
  split.
  - intros u m to from n r m'. apply flat_copy_from_user_ok.
  - intros u to m from n r u'. apply flat_copy_to_user_ok.
Qed.

Lemma flat_uaccess_frame : uaccess_frame flat_kernel.
Proof.
  intros u m to from n a Hn Ha. simpl.
  unfold flat_copy_from_user.
  destruct (flat_mapped u from n); [|reflexivity]. simpl.
  unfold kstore.
  set (bs := firstn (Z.to_nat n) (skipn (Z.to_nat (from - ubase u)) (ubytes u))).
  assert (Hlen : Z.of_nat (length bs) <= n).
  { unfold bs. rewrite length_firstn. lia. }
  destruct (Z.leb_spec to a); [|reflexivity].
  destruct (Z.ltb_spec a (to + Z.of_nat (length bs))); [lia|reflexivity].
Qed.

Lemma flat_block_size_ok : @block_size_ok flat_kernel.
Proof. unfold block_size_ok. simpl. lia. Qed.

(** * The properties at concrete inputs *)

(** ** C1 *)

(** C1 fails as stated: a write that crosses the end of the block is cut
    short.  Writing the two bytes "bc" at position 4095 stores one byte;
    reading two bytes from 4095 returns one, and the reader's buffer holds
    "b" followed by a byte the read never touched. *)
Lemma write_then_read_short :
  let s := flat_state zeroed (file_of 0 1 1) 0 1000 (abc ++ zeros 3) in
  let w := flat_write s 1001 2 4095 in
  let r := flat_read (st w) 1003 2 4095 in
  flat_peek (k_user s) 1001 = Some Byte.x62 /\
  flat_peek (k_user s) 1002 = Some Byte.x63 /\
  ret w = 1 /\ ret r = 1 /\ ret r <> 2 /\
  flat_peek (k_user (st r)) 1003 = Some Byte.x62 /\
  flat_peek (k_user (st r)) 1004 = Some Byte.x00 /\
  flat_peek (k_user (st r)) 1004 <> Some Byte.x63.
Proof.
  vm_compute. repeat split; try reflexivity; discriminate.
Qed.

Lemma write_then_read_witness :
  let s := flat_state zeroed (file_of 0 1 1) 0 1000 (abc ++ zeros 3) in
  let w := flat_write s 1000 3 0 in
  let r := flat_read (st w) 1003 3 0 in
  @user_holds flat_kernel (k_user s) 1000 abc /\
  ret w = 3 /\ ret r = 3 /\ pos r = 3 /\
  @user_holds flat_kernel (k_user (st r)) 1003 abc.
Proof.
  intros s w r.
  assert (Hu : @user_holds flat_kernel (k_user s) 1000 abc).
  { intros k Hk. destruct k as [|[|[|k]]]; [reflexivity..|simpl in Hk; lia]. }
  split; [exact Hu|].
  apply (@write_then_read flat_kernel s 1000 1003 0 abc).
  - exact flat_uaccess_ok.
  - exact flat_block_size_ok.
  - unfold is_u32. simpl. lia.
  - simpl. lia.
  - lia.
  - simpl. lia.
  - exact Hu.
  - vm_compute. discriminate.
  - vm_compute. discriminate.
Defined.

(** ** C2 *)

(** C2 fails as stated on the block assignment: on a file without a block
    Step 2 stores the new block index before the copy is tried, and a
    failing copy does not take it back. *)
Lemma write_fault_after_alloc :
  let s := flat_state zeroed (file_of 0 0 0) 4 1000 [] in
  let w := flat_write s 1000 3 0 in
  fst (@write_copy flat_kernel s 1000 3 0) = 3 /\
  ret w = - EFAULT /\
  i_block (meta s) = 0 /\ i_block (meta (st w)) = 1 /\
  i_block (meta (st w)) <> i_block (meta s).
Proof.
  vm_compute. repeat split; try reflexivity; discriminate.
Qed.

Lemma write_fault_keeps_metadata_witness :
  let s := flat_state zeroed (file_of 10 1 2) 4 1000 [] in
  let w := flat_write s 1000 3 4 in
  fst (@write_copy flat_kernel s 1000 3 4) <> 0 /\
  ret w = - EFAULT /\ pos w = 4 /\ i_size (meta (st w)) = 10 /\
  __i_mtime (meta (st w)) = epoch /\ __i_ctime (meta (st w)) = epoch /\
  i_block (meta (st w)) = 2.
Proof.
  intros s w.
  assert (H : fst (@write_copy flat_kernel s 1000 3 4) <> 0) by (vm_compute; discriminate).
  assert (Hb : i_block (meta s) <> 0) by (vm_compute; discriminate).
  destruct (@write_fault_keeps_metadata flat_kernel s 1000 3 4 H)
    as (T1 & T2 & T3 & T4 & T5 & _ & _ & _ & _ & _ & T6 & _).
  split; [exact H|].
  split; [exact T1|]. split; [exact T2|]. split; [exact T3|].
  split; [exact T4|]. split; [exact T5|]. exact (T6 Hb).
Defined.

(** ** C3 *)

(** C3, the code at the failing input.  A write to a file without a block
    must fail with an out-of-space error, and leave the metadata
    unallocated, when the allocator cannot supply a block.  The code does
    not: with no free block the allocator returns [-ENOSPC] and leaves
    [i_block] at 0, [osfs_write] drops that result, and the write of "abc"
    returns 3, as if written, and records a size of 3 on a file whose
    [i_block] is still the unallocated sentinel. *)
Lemma write_alloc_failure_goes_on :
  let s := flat_state zeroed (file_of 0 0 0) 0 1000 abc in
  let w := flat_write s 1000 3 0 in
  fst (fst (bump_alloc (k_sb s) 0)) = - ENOSPC /\
  snd (bump_alloc (k_sb s) 0) = 0 /\
  ret w = 3 /\ ret w <> - ENOSPC /\
  i_block (meta (st w)) = 0 /\ i_size (meta (st w)) = 3 /\
  i_size (meta (st w)) <> 0.
Proof.
  vm_compute. repeat split; try reflexivity; discriminate.
Qed.

Lemma write_ignores_alloc_failure_witness :
  let s := flat_state zeroed (file_of 0 0 0) 0 1000 abc in
  let w := flat_write s 1001 2 5 in
  (fst (fst (bump_alloc (k_sb s) 0)) <> 0 /\ snd (bump_alloc (k_sb s) 0) = 0) /\
  i_block (meta (st w)) = 0 /\ ret w = 2 /\ i_size (meta (st w)) = 7.
Proof.
  intros s w.
  assert (Ha : fst (fst (@osfs_alloc_data_block flat_kernel (k_sb s) 0)) <> 0)
    by (vm_compute; discriminate).
  assert (Hb : snd (@osfs_alloc_data_block flat_kernel (k_sb s) 0) = 0) by reflexivity.
  assert (Hc : fst (@write_copy flat_kernel s 1001 2 5) = 0) by reflexivity.
  destruct (@write_ignores_alloc_failure flat_kernel s 1001 2 5) as (T1 & _ & T2);
    [exact flat_block_size_ok | simpl; lia | lia | lia | reflexivity | exact Ha | exact Hb |].
  destruct (T2 Hc) as (T3 & _ & T4).
  split; [split; [exact Ha|exact Hb]|].
  split; [exact T1|]. split; [exact T3|exact T4].
Defined.

(** ** C4 *)

(** C4 fails as stated: a write of three bytes at position 4096, the end
    of the block, is not rejected.  It returns 0, no error, and even
    raises the size of the empty file to 4096. *)
Lemma write_at_block_end_accepted :
  let s := flat_state zeroed (file_of 0 1 1) 0 1000 abc in
  let w := flat_write s 1000 3 4096 in
  @BLOCK_SIZE flat_kernel = 4096 /\
  ret w = 0 /\ pos w = 4096 /\ i_size (meta (st w)) = 4096.
Proof.
  vm_compute. repeat split; reflexivity.
Qed.

Lemma write_at_block_end_witness :
  let s := flat_state zeroed (file_of 20 1 1) 0 1000 abc in
  @write_len flat_kernel 1 4096 = 0 /\
  ret (flat_write s 1000 1 4096) = 0 /\ pos (flat_write s 1000 1 4096) = 4096.
Proof.
  intros s.
  destruct (@write_at_block_end flat_kernel s 1000 1) as (T1 & _ & T2);
    [exact flat_block_size_ok | lia | simpl; lia |].
  split; [exact T1|]. apply T2. reflexivity.
Defined.

(** ** C5 *)

(** C5, the code at the failing input.  Every write must keep the
    metadata invariant: a file whose [i_block] is unallocated has size 0.
    The code does not when the allocator has no block to give: the file
    satisfies the invariant before, [osfs_write] drops the allocator's
    [-ENOSPC], and the write of one byte at position 7 returns 1 and
    leaves [i_block] at the sentinel with a size of 8. *)
Lemma write_breaks_meta_inv :
  let s := flat_state zeroed (file_of 0 0 0) 0 1000 abc in
  let w := flat_write s 1000 1 7 in
  (i_block (meta s) = 0 /\ i_size (meta s) = 0) /\
  ret w = 1 /\
  i_block (meta (st w)) = 0 /\ i_size (meta (st w)) = 8 /\
  i_size (meta (st w)) <> 0.
Proof.
  vm_compute. repeat split; try reflexivity; discriminate.
Qed.

Lemma rw_keep_meta_inv_witness :
  let s := flat_state zeroed (file_of 0 0 0) 4 1000 abc in
  @meta_inv flat_kernel (meta s) /\
  @meta_inv flat_kernel (meta (st (flat_read s 1000 3 0))) /\
  i_size (meta (st (flat_write s 1000 3 0))) <= 4096 /\
  @meta_inv flat_kernel (meta (st (flat_write s 1000 3 0))).
Proof.
  intros s.
  assert (Hi : @meta_inv flat_kernel (meta s)).
  { split; [reflexivity | simpl; lia]. }
  destruct (@rw_keep_meta_inv flat_kernel s 1000 3 0 flat_block_size_ok Hi) as (T1 & T2 & T3).
  split; [exact Hi|]. split; [exact T1|]. split; [exact T2|].
  apply T3. intros _. vm_compute. discriminate.
Defined.

(** ** C6 *)

Lemma read_nothing_witness :
  let s := flat_state (kstore zeroed 4096 a_to_j) (file_of 10 1 1) 0 1000 (zeros 8) in
  10 >= i_size (meta s) /\
  flat_read s 1000 100 10 = {| ret := 0; st := s; pos := 10 |}.
Proof.
  intros s.
  assert (H : 10 >= i_size (meta s)) by (simpl; lia).
  split; [exact H|].
  apply (@read_nothing flat_kernel s 1000 100 10). right. left. exact H.
Defined.

(** ** C7 *)

(** The example of the specification: with a size of 10, a read of 100
    bytes at position 5 returns 5 bytes, those at offsets 5..10 of the
    file's block. *)
Lemma read_clamps_to_size_witness :
  let s := flat_state (kstore zeroed 4096 a_to_j) (file_of 10 1 1) 0 1000 (zeros 8) in
  let r := flat_read s 1000 100 5 in
  (i_size (meta s) = 10 /\ i_blocks (meta s) <> 0) /\
  read_len (meta s) 100 5 = 5 /\
  ret r = 5 /\ pos r = 10 /\
  forall k, 0 <= k < 5 ->
    flat_peek (k_user (st r)) (1000 + k) = Some (kstore zeroed 4096 a_to_j (4096 + 5 + k)).
Proof.
  intros s r.
  assert (Hb : i_blocks (meta s) <> 0) by (vm_compute; discriminate).
  destruct (@read_clamps_to_size flat_kernel s 1000 100 5) as (T1 & _ & T2 & _);
    [unfold is_u32; simpl; lia | exact Hb | simpl; lia | lia | lia |].
  destruct (T2 eq_refl) as (T3 & T4).
  split; [split; [reflexivity|exact Hb]|].
  split; [exact T1|].
  split; [exact (f_equal ret T3)|].
  split; [exact (f_equal pos T3)|].
  exact (T4 flat_uaccess_ok).
Defined.

(** ** C8 *)

(** The example of the specification: with [BLOCK_SIZE = 4096], a write of
    200 bytes at position 4000 returns 96 and leaves the size at 4096. *)
Lemma write_clips_to_block_witness :
  let s := flat_state zeroed (file_of 0 1 1) 0 1000 (zeros 200) in
  let w := flat_write s 1000 200 4000 in
  @BLOCK_SIZE flat_kernel = 4096 /\
  fst (@write_copy flat_kernel s 1000 200 4000) = 0 /\
  ret w = 96 /\ pos w = 4096 /\ i_size (meta (st w)) = 4096.
Proof.
  intros s w.
  assert (Hc : fst (@write_copy flat_kernel s 1000 200 4000) = 0) by reflexivity.
  destruct (@write_clips_to_block flat_kernel s 1000 200 4000) as (_ & T1 & T2 & _ & T3);
    [exact flat_block_size_ok | simpl; lia | simpl; lia | lia | exact Hc |].
  split; [reflexivity|]. split; [exact Hc|].
  split; [exact T1|]. split; [exact T2|].
  apply T3. simpl. lia.
Defined.

(** ** C9 *)

(** The example of the specification: a file of 100 bytes is still 100
    bytes long after a write of 5 bytes at position 10. *)
Lemma write_size_is_max_witness :
  let s := flat_state zeroed (file_of 100 1 1) 0 1000 (abc ++ abc) in
  let w := flat_write s 1000 5 10 in
  fst (@write_copy flat_kernel s 1000 5 10) = 0 /\
  ret w = 5 /\
  i_size (meta (st w)) = Z.max 100 (10 + 5) /\
  i_size (meta (st w)) = 100.
Proof.
  intros s w.
  assert (Hc : fst (@write_copy flat_kernel s 1000 5 10) = 0) by reflexivity.
  destruct (@write_size_is_max flat_kernel s 1000 5 10) as (T1 & _ & _);
    [exact flat_block_size_ok | unfold is_loff_t; lia | lia | unfold is_size_t; lia
    | exact Hc |].
  split; [exact Hc|]. split; [reflexivity|]. split; [exact T1|].
  etransitivity; [exact T1|reflexivity].
Defined.

(** ** C10 *)

(** C10 fails as stated on the size: a write of no bytes with the cursor
    at 50, beyond the end of a file of 10 bytes, returns 0 and sets the
    size to 50. *)
Lemma write_nothing_grows_size :
  let s := flat_state zeroed (file_of 10 1 1) 0 1000 abc in
  let w := flat_write s 1000 0 50 in
  fst (@write_copy flat_kernel s 1000 0 50) = 0 /\
  ret w = 0 /\ pos w = 50 /\
  i_size (meta s) = 10 /\ i_size (meta (st w)) = 50 /\
  i_size (meta (st w)) <> i_size (meta s).
Proof.
  vm_compute. repeat split; try reflexivity; discriminate.
Qed.

Lemma write_nothing_witness :
  let s := flat_state zeroed (file_of 10 1 1) 0 1000 abc in
  let w := flat_write s 1000 0 4 in
  fst (@write_copy flat_kernel s 1000 0 4) = 0 /\
  ret w = 0 /\ pos w = 4 /\ i_size (meta (st w)) = 10 /\
  __i_mtime (meta (st w)) = {| tv_sec := 100; tv_nsec := 0 |} /\
  __i_ctime (meta (st w)) = {| tv_sec := 100; tv_nsec := 0 |} /\
  Vfs.__i_mtime (k_inode (st w)) = {| tv_sec := 101; tv_nsec := 0 |} /\
  Vfs.__i_ctime (k_inode (st w)) = {| tv_sec := 101; tv_nsec := 0 |}.
Proof.
  intros s w.
  assert (Hc : fst (@write_copy flat_kernel s 1000 0 4) = 0) by reflexivity.
  destruct (@write_nothing flat_kernel s 1000 4) as (T1 & T2 & _ & T3 & T4 & T5 & T6 & T7);
    [exact flat_block_size_ok | simpl; lia | exact Hc |].
  split; [exact Hc|]. split; [exact T1|]. split; [exact T2|].
  split; [apply T3; simpl; lia|].
  split; [exact T4|]. split; [exact T5|]. split; [exact T6|exact T7].
Defined.

(** ** Further properties *)

(** A file of ten bytes "abcdefghij" on block 1, and a user window of
    eight zero bytes at address 1000. *)
Lemma read_result_bounds_witness :
  let s := flat_state (kstore zeroed 4096 a_to_j) (file_of 10 1 1) 0 1000 (zeros 8) in
  let r := flat_read s 1000 100 5 in
  0 <= ret r <= 100 /\ ret r = 5 /\ pos r = 5 + ret r /\ pos r <= 10.
Proof.
  intros s r.
  destruct (@read_result_bounds flat_kernel s 1000 100 5) as [[T _]|(T1 & T2 & T3)];
    [unfold is_u32; simpl; lia | lia | lia | lia | vm_compute in T; discriminate |].
  split; [exact T1|]. split; [reflexivity|]. split; [exact T2|exact T3].
Defined.

Lemma read_then_eof_witness :
  let s := flat_state (kstore zeroed 4096 a_to_j) (file_of 10 1 1) 0 1000 (zeros 8) in
  let r := flat_read s 1000 100 5 in
  ret r = 5 /\
  flat_read (st r) 1000 100 (pos r) = {| ret := 0; st := st r; pos := pos r |}.
Proof.
  intros s r. split; [reflexivity|].
  apply (@read_then_eof flat_kernel s 1000 100 5 1000 100).
  - unfold is_u32. simpl. lia.
  - lia.
  - lia.
  - lia.
  - simpl. lia.
  - vm_compute. discriminate.
Defined.

Lemma read_twice_witness :
  let s := flat_state (kstore zeroed 4096 a_to_j) (file_of 10 1 1) 0 1000 (zeros 8) in
  let r1 := flat_read s 1000 3 2 in
  let r2 := flat_read (st r1) 1003 4 (pos r1) in
  ret r1 + ret r2 = 7 /\ pos r2 = 9.
Proof.
  intros s r1 r2.
  destruct (@read_twice flat_kernel s 1000 3 1003 4 2) as (T1 & _ & T2).
  - unfold is_u32. simpl. lia.
  - lia.
  - lia.
  - lia.
  - lia.
  - vm_compute. discriminate.
  - vm_compute. discriminate.
  - split; [apply T1; vm_compute; discriminate|].
    etransitivity; [exact T2|reflexivity].
Defined.

(** A new file, no block yet and [i_blocks = 0], with four free blocks. *)
Lemma write_leaves_i_blocks_witness :
  let s := flat_state zeroed (file_of 0 0 0) 4 1000 (abc ++ zeros 3) in
  let w := flat_write s 1000 3 0 in
  ret w = 3 /\ i_size (meta (st w)) = 3 /\
  i_blocks (meta (st w)) = 0 /\
  flat_read (st w) 1003 3 0 = {| ret := 0; st := st w; pos := 0 |}.
Proof.
  intros s w.
  split; [reflexivity|]. split; [reflexivity|].
  apply (@write_leaves_i_blocks flat_kernel s 1000 3 0 1003 3 0). reflexivity.
Defined.

Lemma write_allocates_once_witness :
  let s := flat_state zeroed (file_of 0 0 0) 4 1000 (abc ++ zeros 3) in
  let w1 := flat_write s 1000 3 0 in
  let w2 := flat_write (st w1) 1000 3 3 in
  i_block (meta s) = 0 /\
  i_block (meta (st w1)) = 1 /\
  i_block (meta (st w2)) = 1 /\
  block_alloc (k_sb (st w2)) = block_alloc (k_sb (st w1)).
Proof.
  intros s w1 w2.
  destruct (@write_allocates_once flat_kernel s 1000 3 0 1000 3 3) as (_ & T2 & T3).
  { intros _. vm_compute. discriminate. }
  split; [reflexivity|]. split; [reflexivity|].
  split; [exact T2|exact T3].
Defined.

Lemma write_in_block_witness :
  let s := flat_state zeroed (file_of 0 1 1) 0 1000 abc in
  let w := flat_write s 1000 3 10 in
  ret w = 3 /\ pos w = 13 /\
  forall k, 0 <= k < 3 ->
    flat_peek (k_user s) (1000 + k) = Some (data_blocks (k_sb (st w)) (4096 + 10 + k)).
Proof.
  intros s w.
  destruct (@write_in_block flat_kernel s 1000 3 10) as (T1 & _ & T2 & _ & T3);
    [exact flat_block_size_ok | simpl; lia | lia | lia | reflexivity |].
  split; [exact T1|]. split; [exact T2|].
  exact (T3 flat_uaccess_ok).
Defined.

(** The same file with the cursor at 5000, beyond the block. *)
Lemma write_beyond_block_witness :
  let s := flat_state zeroed (file_of 0 1 1) 0 1000 abc in
  let w := flat_write s 1000 3 5000 in
  @write_len flat_kernel 3 5000 = 2 ^ 64 - 904 /\
  ret w = - EFAULT /\ pos w = 5000 /\ i_size (meta (st w)) = 0.
Proof.
  intros s w.
  destruct (@write_beyond_block flat_kernel s 1000 3 5000) as (T1 & _ & T2 & _);
    [exact flat_block_size_ok | simpl; lia | unfold is_loff_t; lia | lia | lia |].
  split; [exact T1|].
  apply T2. vm_compute. discriminate.
Defined.

Lemma write_after_short_write_witness :
  let s := flat_state zeroed (file_of 0 1 1) 0 1000 (zeros 200) in
  let w1 := flat_write s 1000 200 4000 in
  let w2 := flat_write (st w1) 1096 104 (pos w1) in
  ret w1 = 96 /\ ret w1 < 200 /\ pos w1 = 4096 /\
  (ret w2 = 0 \/ ret w2 = - EFAULT) /\ pos w2 = 4096.
Proof.
  intros s w1 w2.
  destruct (@write_after_short_write flat_kernel s 1000 200 4000 1096 104)
    as (T1 & T2 & _ & T3 & T4);
    [exact flat_block_size_ok | simpl; lia | simpl; lia | lia | lia | simpl; lia
    | reflexivity |].
  split; [reflexivity|]. split; [exact T1|]. split; [exact T2|].
  split; [exact T3|exact T4].
Defined.

Lemma write_stamps_witness :
  let s := flat_state zeroed (file_of 0 1 1) 0 1000 abc in
  let w := flat_write s 1000 3 0 in
  __i_mtime (meta (st w)) = {| tv_sec := 100; tv_nsec := 0 |} /\
  __i_ctime (meta (st w)) = {| tv_sec := 100; tv_nsec := 0 |} /\
  Vfs.__i_mtime (k_inode (st w)) = {| tv_sec := 101; tv_nsec := 0 |} /\
  Vfs.__i_ctime (k_inode (st w)) = {| tv_sec := 101; tv_nsec := 0 |} /\
  k_clock (st w) = 102 /\
  Vfs.i_size (k_inode (st w)) = 3.
Proof.
  intros s w.
  destruct (@write_stamps flat_kernel s 1000 3 0) as (T1 & T2 & T3 & T4 & T5 & T6);
    [reflexivity|].
  split; [exact T1|]. split; [exact T2|]. split; [exact T3|].
  split; [exact T4|]. split; [exact T5|exact T6].
Defined.

(** A file on block 2; block 1 and the bytes around block 2 stay as they
    were. *)
Lemma write_stays_in_block_witness :
  let s := flat_state (kstore zeroed 4096 a_to_j) (file_of 0 1 2) 0 1000 abc in
  let w := flat_write s 1000 3 4094 in
  ret w = 2 /\
  data_blocks (k_sb (st w)) (3 * 4096) = data_blocks (k_sb s) (3 * 4096) /\
  forall off, 0 <= off < 4096 ->
    data_blocks (k_sb (st w)) (4096 + off) = data_blocks (k_sb s) (4096 + off).
Proof.
  intros s w.
  destruct (@write_stays_in_block flat_kernel s 1000 3 4094) as (T1 & T2);
    [exact flat_uaccess_frame | exact flat_block_size_ok | vm_compute; discriminate
    | simpl; lia | lia | lia |].
  split; [reflexivity|].
  split; [apply T1; right; vm_compute; discriminate|].
  intros off Hoff.
  apply (T2 (Vfs.i_private (file_of 0 1 1)) off); simpl; try lia; exact Hoff.
Defined.

(** Overwriting bytes 5..8 of "abcdefghij" and reading bytes 0..4. *)
Lemma write_then_read_elsewhere_witness :
  let s := flat_state (kstore zeroed 4096 a_to_j) (file_of 10 1 1) 0 1000 (abc ++ zeros 5) in
  let w := flat_write s 1000 3 5 in
  let r := flat_read (st w) 1003 4 0 in
  ret w = 3 /\ ret r = 4 /\
  forall k, 0 <= k < 4 ->
    flat_peek (k_user (st r)) (1003 + k) = Some (kstore zeroed 4096 a_to_j (4096 + k)).
Proof.
  intros s w r.
  destruct (@write_then_read_elsewhere flat_kernel s 1000 3 5 1003 4 0) as (_ & T);
    [ exact flat_uaccess_ok | exact flat_uaccess_frame | exact flat_block_size_ok
    | unfold is_u32; simpl; lia | vm_compute; discriminate | vm_compute; discriminate
    | lia | lia | simpl; lia | simpl; lia | lia | left; lia | lia
    | vm_compute; discriminate | vm_compute; discriminate |].
  split; [reflexivity|]. split; [reflexivity|].
  exact T.
Defined.

(** An empty file without a block yet ([i_block = 0], [i_blocks = 1]); the
    block the allocator will give it, block 1, still holds "abcdefghij".
    A write of "abc" at position 6 makes bytes 2..5 readable. *)
Lemma write_beyond_size_exposes_block_witness :
  let s := flat_state (kstore zeroed 4096 a_to_j) (file_of 0 1 0) 4 1000 (abc ++ zeros 5) in
  let w := flat_write s 1000 3 6 in
  let r := flat_read (st w) 1003 3 2 in
  ret (flat_read s 1003 3 2) = 0 /\
  i_block (meta s) = 0 /\ i_block (meta (st w)) = 1 /\
  i_size (meta (st w)) = 9 /\
  ret r = 3 /\
  forall k, 0 <= k < 3 ->
    flat_peek (k_user (st r)) (1003 + k) = Some (kstore zeroed 4096 a_to_j (4096 + 2 + k)).
Proof.
  intros s w r.
  destruct (@write_beyond_size_exposes_block flat_kernel s 1000 3 6 1003 3 2)
    as (T1 & _ & T2 & T3 & _);
    [ exact flat_uaccess_ok | exact flat_uaccess_frame | exact flat_block_size_ok
    | unfold is_u32; simpl; lia | vm_compute; discriminate
    | intros _; vm_compute; discriminate
    | lia | simpl; lia | simpl; lia | lia | lia
    | vm_compute; discriminate | vm_compute; discriminate |].
  split; [exact T1|]. split; [reflexivity|]. split; [reflexivity|].
  split; [reflexivity|]. split; [exact T2|exact T3].
Defined.

(** "abc" and then "de" appended to an empty file that has no block yet
    ([i_block = 0], [i_blocks = 1], four free blocks), and read back. *)
Lemma write_write_read_witness :
  let s := flat_state zeroed (file_of 0 1 0) 4 1000 (a_to_j ++ zeros 5) in
  let B1 := abc in
  let B2 := [Byte.x64; Byte.x65] in
  let w1 := flat_write s 1000 3 0 in
  let w2 := flat_write (st w1) 1003 2 (pos w1) in
  let r := flat_read (st w2) 1010 5 0 in
  i_block (meta s) = 0 /\ i_block (meta (st w1)) = 1 /\
  pos w2 = 5 /\ ret r = 5 /\
  @user_holds flat_kernel (k_user (st r)) 1010 (B1 ++ B2).
Proof.
  intros s B1 B2 w1 w2 r.
  split; [reflexivity|]. split; [reflexivity|].
  apply (@write_write_read flat_kernel s 1000 1003 1010 0 B1 B2).
  - exact flat_uaccess_ok.
  - exact flat_uaccess_frame.
  - exact flat_block_size_ok.
  - unfold is_u32. simpl. lia.
  - vm_compute. discriminate.
  - intros _. vm_compute. discriminate.
  - lia.
  - simpl. lia.
  - intros k Hk. destruct k as [|[|[|k]]]; [reflexivity..|simpl in Hk; lia].
  - intros k Hk. destruct k as [|[|k]]; [reflexivity..|simpl in Hk; lia].
  - vm_compute. discriminate.
  - vm_compute. discriminate.
  - vm_compute. discriminate.
Defined.

(** The short write of 200 bytes at position 4000 leaves the cursor at the
    end of the block. *)
Lemma write_cursor_in_block_witness :
  let s := flat_state zeroed (file_of 0 1 1) 0 1000 (zeros 200) in
  fst (@write_copy flat_kernel s 1000 200 4000) = 0 /\
  0 <= pos (flat_write s 1000 200 4000) <= 4096.
Proof.
  intros s.
  assert (H : fst (@write_copy flat_kernel s 1000 200 4000) = 0) by reflexivity.
  split; [exact H|].
  exact (@write_cursor_in_block flat_kernel s 1000 200 4000 flat_block_size_ok H).
Defined.

(** A session on an empty file that has block 1: write "abc", seek far
    beyond the block, try to write there (the copy fails), seek back,
    read three bytes, write two more. *)
Lemma run_keeps_witness :
  let s := flat_state zeroed (file_of 0 1 1) 4 1000 (abc ++ zeros 3) in
  let cs := [do_write 1000 3; do_seek 9000; do_write 1000 3; do_seek 0;
             do_read 1003 3; do_write 1000 2] in
  let s' := fst (@run flat_kernel cs (s, 0)) in
  i_size (meta s') = 5 /\
  0 <= i_size (meta s') <= 4096 /\
  i_blocks (meta s') = 1 /\
  i_block (meta s') = 1 /\
  block_alloc (k_sb s') = {| next_free := 1; block_count := 5 |}.
Proof.
  intros s cs s'.
  destruct (@run_keeps flat_kernel cs s 0 flat_block_size_ok) as (T1 & T2 & T3);
    [simpl; lia|].
  destruct T3 as [T3 T4]; [vm_compute; discriminate|].
  split; [reflexivity|]. split; [exact T1|]. split; [exact T2|].
  split; [exact T3|exact T4].
Defined.
